(** * zatt/server/states.py: the Raft role state machine

    A shallow embedding of [State], [Follower], [Candidate] and [Leader]
    and of the two entry points [data_received_peer] and
    [data_received_client].  Handlers are written in a small monad that
    threads the node (the shared [persist], [volatile] and [log] together
    with the attributes of the current role object), collects the effects
    on the outside world as a trace, and propagates Python exceptions
    while keeping the mutations made before the raise. *)

From Stdlib Require Import ZArith QArith Qcanon Qround Lqa.
From stdpp Require Import base list gmap strings numbers sorting.
From Equations Require Import Equations.

Open Scope Z_scope.

(** ** Values *)

Definition PeerId := Z.
Definition Address := string.
(** A client connection (the [protocol] object handed to client handlers). *)
Definition Client := Z.
(** An opaque client command. *)
Definition Data := string.
(** The value of the key-value state machine; only copied around here. *)
Definition SMData := list Data.
(** A Python number.  [commitIndex] and the [nextIndex] values start as
    integers but [statistics.median] of an even number of values is the
    mean of the two middle ones, so they range over rationals. *)
Abbreviation Num := Qc.

Record Entry := { entry_term : Z; entry_data : Data }.

(** [log.compacted]: the snapshot descriptor. *)
Record Compacted := {
  compacted_index : Z;
  compacted_term : Z;
  compacted_data : SMData;
  compacted_count : Z }.

(** The three snapshot fields of an [append_entries] message; they are
    set together by [Leader.send_append_entries]. *)
Record CompactFields := {
  compact_data : SMData;
  compact_term : Z;
  compact_count : Z }.

(** ** Messages *)

Record RequestVoteMsg := {
  rv_term : Z;
  rv_candidateId : PeerId;
  rv_lastLogIndex : Z;
  rv_lastLogTerm : option Z }.

Record ResponseVoteMsg := {
  rsv_term : Z;
  rsv_voteGranted : bool }.

Record AppendEntriesMsg := {
  ae_term : Z;
  ae_leaderCommit : Num;
  ae_leaderId : PeerId;
  ae_prevLogIndex : Num;
  ae_entries : list Entry;
  ae_prevLogTerm : option Z;
  ae_compact : option CompactFields }.

Record ResponseAppendMsg := {
  ra_term : Z;
  ra_next_index : Z }.

(** [msg['type']] selects the constructor; every peer message has a
    [term]. *)
Inductive PeerMsg :=
| RequestVote (m : RequestVoteMsg)
| ResponseVote (m : ResponseVoteMsg)
| AppendEntries (m : AppendEntriesMsg)
| ResponseAppend (m : ResponseAppendMsg)
| OtherPeerMsg (type : string) (term : Z).

Definition msg_term (msg : PeerMsg) : Z :=
  match msg with
  | RequestVote m => rv_term m
  | ResponseVote m => rsv_term m
  | AppendEntries m => ae_term m
  | ResponseAppend m => ra_term m
  | OtherPeerMsg _ t => t
  end.

Inductive ClientMsg :=
| ClientAppend (data : Data)
| ClientGet
| ClientDiagnostic
| OtherClientMsg (type : string).

(** The reply of [on_client_diagnostic], without the dumps of the log
    object and of the storage files. *)
Record DiagnosticMsg := {
  diag_status : string;
  diag_votedFor : option PeerId;
  diag_currentTerm : Z;
  diag_leaderId : option PeerId;
  diag_Id : PeerId;
  diag_commitIndex : Num;
  diag_leaderStatus : option (gmap PeerId Num * list (Z * list Client)) }.

Inductive ClientReply :=
| Redirect (leader : option Address)
| Result (success : bool)
| StateMachineValue (data : SMData)
| Diagnostic (d : DiagnosticMsg).

(** ** Effects *)

Inductive Event :=
| SendPeer (peer_id : PeerId) (msg : PeerMsg)
| BroadcastPeers (msg : PeerMsg)
| ClientSend (client : Client) (reply : ClientReply)
| ElectionTimerRestart
| ElectionTimerCancel
| AppendTimerSchedule
| AppendTimerCancel.

Inductive Exn := KeyError | AttributeError.

Inductive Res (A : Type) :=
| Ok (a : A)
| Raise (e : Exn).
Arguments Ok {A} a.
Arguments Raise {A} e.

(** ** Python dicts whose iteration order matters

    A dict is a list of bindings in insertion order with distinct keys. *)
Module PyDict.
Section Ops.
Context {K V : Type} `{EqDecision K}.

Fixpoint get (k : K) (d : list (K * V)) : option V :=
  match d with
  | [] => None
  | (k', v) :: d' => if decide (k = k') then Some v else get k d'
  end.

(** [d[k] = v]: an existing key keeps its position. *)
Fixpoint set (k : K) (v : V) (d : list (K * V)) : list (K * V) :=
  match d with
  | [] => [(k, v)]
  | (k', v') :: d' =>
      if decide (k = k') then (k, v) :: d' else (k', v') :: set k v d'
  end.

(** [del d[k]]; [None] stands for the [KeyError]. *)
Fixpoint del (k : K) (d : list (K * V)) : option (list (K * V)) :=
  match d with
  | [] => None
  | (k', v') :: d' =>
      if decide (k = k') then Some d'
      else match del k d' with
           | Some d'' => Some ((k', v') :: d'')
           | None => None
           end
  end.

Definition keys (d : list (K * V)) : list K := d.*1.
End Ops.
End PyDict.

(** ** statistics.median

    [data = sorted(data); n = len(data)]; the middle element when [n] is
    odd, [(data[n//2 - 1] + data[n//2]) / 2] when it is even, and
    [StatisticsError] ([None]) on no data. *)
Definition median (data : list Num) : option Num :=
  let data := merge_sort Qcle data in
  let n := length data in
  if decide (n = 0%nat) then None
  else if Nat.odd n then data !! (n / 2)%nat
  else
    match data !! (n / 2 - 1)%nat, data !! (n / 2)%nat with
    | Some a, Some b => Some ((a + b) / Qc_of_Z 2)%Qc
    | _, _ => None
    end.

(** ** The log manager

    [LogManager] lives in [zatt/server/log.py]; the roles only call the
    methods below, so they are taken as an interface. *)
Class LogManager (L : Type) := {
  (** [LogManager()] *)
  log_new : L;
  (** [LogManager(compact_count=, compact_term=, compact_data=)] *)
  log_from_compact : Z → Z → SMData → L;
  (** [log.index] *)
  log_index : L → Z;
  (** [log.commitIndex] *)
  log_commitIndex : L → Num;
  (** [log.term(index)], [log.term()] for [None] *)
  log_term : option Num → L → option Z;
  (** [log[lo:hi]] *)
  log_slice : Num → Num → L → list Entry;
  (** [log.append_entries(entries, prevLogIndex)] *)
  log_append_entries : list Entry → Num → L → L;
  (** [log.commit(leaderCommit)] *)
  log_commit : Num → L → L;
  (** [log.compacted] *)
  log_compacted : L → Compacted;
  (** [log.state_machine.data] *)
  log_state_machine_data : L → SMData }.

(** ** Node state *)

(** [self.persist] *)
Record Persist := { votedFor : option PeerId; currentTerm : Z }.

(** [self.volatile] *)
Record Volatile := { leaderId : option PeerId; Id : PeerId }.

(** The class of the current state object with its own attributes. *)
Inductive Role :=
| Follower
| Candidate (votes_count : Z)
| Leader (nextIndex : gmap PeerId Num)
         (waiting_clients : list (Z * list Client)).

(** The class objects passed to [change_state]. *)
Inductive RoleClass := FollowerCls | CandidateCls | LeaderCls.

(** [config]: only [id] and [cluster] are read by the handlers. *)
Record Config := {
  config_id : PeerId;
  config_cluster : list (PeerId * Address) }.

Record Node (L : Type) := {
  role : Role;
  persist : Persist;
  volatile : Volatile;
  log : L }.
Arguments role {L} n.
Arguments persist {L} n.
Arguments volatile {L} n.
Arguments log {L} n.

(** What running a handler on a node yields. *)
Record Outcome (L A : Type) := {
  result : Res A;
  final : Node L;
  events : list Event }.
Arguments result {L A} o.
Arguments final {L A} o.
Arguments events {L A} o.

Definition M (L A : Type) : Type := Node L → Outcome L A.

Definition is_Follower (r : Role) : bool :=
  match r with Follower => true | _ => false end.

Definition is_Leader (r : Role) : bool :=
  match r with Leader _ _ => true | _ => false end.

(** [self.__class__.__name__] *)
Definition class_name (r : Role) : string :=
  match r with
  | Follower => "Follower"
  | Candidate _ => "Candidate"
  | Leader _ _ => "Leader"
  end.

Definition role_rank {L} (n : Node L) : nat :=
  if is_Follower (role n) then 0%nat else 1%nat.

(** ** The handler monad *)

Section Monad.
Context {L : Type}.

Definition M_ret {A} (a : A) : M L A :=
  λ n, {| result := Ok a; final := n; events := [] |}.

Definition M_bind {A B} (f : A → M L B) (m : M L A) : M L B :=
  λ n,
    let r := m n in
    match result r with
    | Ok a =>
        let r' := f a (final r) in
        {| result := result r'; final := final r';
           events := events r ++ events r' |}
    | Raise e => {| result := Raise e; final := final r; events := events r |}
    end.

(** Continue an outcome with the outcome of what runs next. *)
Definition and_then {A B} (r : Outcome L A) (r' : Outcome L B) : Outcome L B :=
  match result r with
  | Ok _ =>
      {| result := result r'; final := final r';
         events := events r ++ events r' |}
  | Raise e => {| result := Raise e; final := final r; events := events r |}
  end.

(** An outcome with more events in front of its own. *)
Definition after {A} (evs : list Event) (r : Outcome L A) : Outcome L A :=
  {| result := result r; final := final r; events := evs ++ events r |}.

Definition gets {A} (f : Node L → A) : M L A :=
  λ n, {| result := Ok (f n); final := n; events := [] |}.

Definition modify (f : Node L → Node L) : M L unit :=
  λ n, {| result := Ok tt; final := f n; events := [] |}.

Definition emit (e : Event) : M L unit :=
  λ n, {| result := Ok tt; final := n; events := [e] |}.

Definition raise {A} (e : Exn) : M L A :=
  λ n, {| result := Raise e; final := n; events := [] |}.
End Monad.

#[global] Instance M_mret {L} : MRet (M L) := @M_ret L.
#[global] Instance M_mbind {L} : MBind (M L) := @M_bind L.

(** [d[k]] on a value that may be absent. *)
Definition getitem {L A} (o : option A) : M L A :=
  match o with
  | Some a => mret a
  | None => raise KeyError
  end.

(** [for x in xs: body(x)] *)
Fixpoint for_each {L A} (xs : list A) (body : A → M L unit) : M L unit :=
  match xs with
  | [] => mret tt
  | x :: xs' => body x;; for_each xs' body
  end.

(** ** Attribute access *)

Section Attributes.
Context {L : Type}.

Definition with_role (r : Role) (n : Node L) : Node L :=
  {| role := r; persist := persist n; volatile := volatile n; log := log n |}.

Definition with_currentTerm (t : Z) (n : Node L) : Node L :=
  {| role := role n;
     persist := {| votedFor := votedFor (persist n); currentTerm := t |};
     volatile := volatile n; log := log n |}.

Definition with_votedFor (v : option PeerId) (n : Node L) : Node L :=
  {| role := role n;
     persist := {| votedFor := v; currentTerm := currentTerm (persist n) |};
     volatile := volatile n; log := log n |}.

Definition with_leaderId (l : option PeerId) (n : Node L) : Node L :=
  {| role := role n; persist := persist n;
     volatile := {| leaderId := l; Id := Id (volatile n) |};
     log := log n |}.

Definition with_log (l : L) (n : Node L) : Node L :=
  {| role := role n; persist := persist n; volatile := volatile n; log := l |}.

Definition set_role (r : Role) : M L unit := modify (with_role r).
Definition set_currentTerm (t : Z) : M L unit := modify (with_currentTerm t).
Definition set_votedFor (v : option PeerId) : M L unit := modify (with_votedFor v).
Definition set_leaderId (l : option PeerId) : M L unit := modify (with_leaderId l).
Definition set_log (l : L) : M L unit := modify (with_log l).

(** [self.votes_count], an attribute of [Candidate] objects only. *)
Definition get_votes_count : M L Z :=
  r ← gets role;
  match r with
  | Candidate vc => mret vc
  | _ => raise AttributeError
  end.

(** [self.nextIndex] and [self.waiting_clients], attributes of [Leader]
    objects only. *)
Definition get_nextIndex : M L (gmap PeerId Num) :=
  r ← gets role;
  match r with
  | Leader ni _ => mret ni
  | _ => raise AttributeError
  end.

Definition get_waiting_clients : M L (list (Z * list Client)) :=
  r ← gets role;
  match r with
  | Leader _ wc => mret wc
  | _ => raise AttributeError
  end.

Definition set_nextIndex (ni : gmap PeerId Num) : M L unit :=
  r ← gets role;
  match r with
  | Leader _ wc => set_role (Leader ni wc)
  | _ => raise AttributeError
  end.

Definition set_waiting_clients (wc : list (Z * list Client)) : M L unit :=
  r ← gets role;
  match r with
  | Leader ni _ => set_role (Leader ni wc)
  | _ => raise AttributeError
  end.

(** [self.orchestrator.send_peer], [broadcast_peers] and
    [protocol.send] hand the message to the transport. *)
Definition send_peer (peer_id : PeerId) (msg : PeerMsg) : M L unit :=
  emit (SendPeer peer_id msg).

Definition broadcast_peers (msg : PeerMsg) : M L unit :=
  emit (BroadcastPeers msg).

Definition client_send (protocol : Client) (reply : ClientReply) : M L unit :=
  emit (ClientSend protocol reply).
End Attributes.

(** Case analysis that keeps the equation, for termination proofs. *)
Definition inspect {A} (a : A) : {b | a = b} := exist _ a eq_refl.

(** ** The roles *)

Section Roles.
Context {L : Type} `{!LogManager L} (config : Config).

(** *** Follower *)

(** The timer is a collaborator of the event loop; the model records
    that it was (re)armed, not the random delay. *)
Definition restart_election_timer : M L unit :=
  emit ElectionTimerRestart.

(** [Follower.__init__] after [State.__init__] adopted the shared
    [persist], [volatile] and [log] of the old state. *)
Definition Follower__init__ : M L unit :=
  set_votedFor None;;
  restart_election_timer.

(** [State.__init__] without an old state, then [Follower.__init__]:
    the state the orchestrator starts in.  [stored] is what
    [PersistentDict] found on disk, if anything. *)
Definition start (stored : option Persist) : Outcome L unit :=
  (set_role Follower;; Follower__init__)
    {| role := Follower;
       persist := default {| votedFor := None; currentTerm := 0 |} stored;
       volatile := {| leaderId := None; Id := config_id config |};
       log := log_new |}.

Definition Follower_on_peer_request_vote
    (peer_id : PeerId) (msg : RequestVoteMsg) : M L unit :=
  restart_election_timer;;
  p ← gets persist;
  l ← gets log;
  let term_is_current := bool_decide (currentTerm p ≤ rv_term msg) in
  let can_vote :=
    bool_decide (votedFor p = None ∨ votedFor p = Some (rv_candidateId msg)) in
  let index_is_current := bool_decide (log_index l ≤ rv_lastLogIndex msg) in
  let granted := term_is_current && can_vote && index_is_current in
  (if granted then set_votedFor (Some (rv_candidateId msg)) else mret tt);;
  p ← gets persist;
  send_peer peer_id
    (ResponseVote {| rsv_term := currentTerm p; rsv_voteGranted := granted |}).

(** The locals [term_is_current], [prev_log_term_match] and [success]
    of [Follower.on_peer_append_entries].  [or] does not evaluate
    [log.term] when [prevLogTerm] is [None]. *)
Definition term_is_current (msg : AppendEntriesMsg) (n : Node L) : bool :=
  bool_decide (currentTerm (persist n) ≤ ae_term msg).

Definition prev_log_term_match (msg : AppendEntriesMsg) (n : Node L) : bool :=
  match ae_prevLogTerm msg with
  | None => true
  | Some t =>
      bool_decide (log_term (Some (ae_prevLogIndex msg)) (log n) = Some t)
  end.

Definition success (msg : AppendEntriesMsg) (n : Node L) : bool :=
  term_is_current msg n && prev_log_term_match msg n.

Definition Follower_on_peer_append_entries
    (peer_id : PeerId) (msg : AppendEntriesMsg) : M L unit :=
  restart_election_timer;;
  success ← gets (success msg);
  match ae_compact msg with
  | Some c =>
      set_log (log_from_compact (compact_count c) (compact_term c)
                                (compact_data c));;
      set_leaderId (Some (ae_leaderId msg))
  | None =>
      if success : bool then
        l ← gets log;
        set_log (log_append_entries (ae_entries msg) (ae_prevLogIndex msg) l);;
        l ← gets log;
        set_log (log_commit (ae_leaderCommit msg) l);;
        set_leaderId (Some (ae_leaderId msg))
      else mret tt
  end;;
  l ← gets log;
  p ← gets persist;
  send_peer peer_id
    (ResponseAppend {| ra_term := currentTerm p;
                       ra_next_index := log_index l + 1 |}).

(** *** Candidate *)

Definition send_vote_requests : M L unit :=
  p ← gets persist;
  v ← gets volatile;
  l ← gets log;
  broadcast_peers
    (RequestVote {| rv_term := currentTerm p;
                    rv_candidateId := Id v;
                    rv_lastLogIndex := log_index l;
                    rv_lastLogTerm := log_term None l |}).

Definition Candidate__init__ : M L unit :=
  Follower__init__;;
  p ← gets persist;
  set_currentTerm (currentTerm p + 1);;
  v ← gets volatile;
  set_votedFor (Some (Id v));;
  set_role (Candidate 1);;
  send_vote_requests.

(** *** Leader *)

Definition send_append_entries_to (peer_id : PeerId) : M L unit :=
  v ← gets volatile;
  if decide (peer_id = Id v) then mret tt
  else
    nextIndex ← get_nextIndex;
    next ← getitem (nextIndex !! peer_id);
    p ← gets persist;
    l ← gets log;
    let prevLogIndex := (next - 1)%Qc in
    let compact :=
      if decide (next ≤ Qc_of_Z (compacted_index (log_compacted l)))%Qc
      then Some {| compact_data := compacted_data (log_compacted l);
                   compact_term := compacted_term (log_compacted l);
                   compact_count := compacted_count (log_compacted l) |}
      else None in
    send_peer peer_id
      (AppendEntries
         {| ae_term := currentTerm p;
            ae_leaderCommit := log_commitIndex l;
            ae_leaderId := Id v;
            ae_prevLogIndex := prevLogIndex;
            ae_entries := log_slice next (next + Qc_of_Z 2)%Qc l;
            ae_prevLogTerm := log_term (Some prevLogIndex) l;
            ae_compact := compact |}).

Definition send_append_entries : M L unit :=
  for_each (PyDict.keys (config_cluster config)) send_append_entries_to;;
  emit AppendTimerSchedule.

(** [waiting_clients] is assigned after the first round of
    [send_append_entries], which does not read it. *)
Definition Leader__init__ : M L unit :=
  v ← gets volatile;
  set_leaderId (Some (Id v));;
  l ← gets log;
  set_role
    (Leader
       (list_to_map
          ((λ x, (x, (log_commitIndex l + Qc_of_Z 1)%Qc))
             <$> PyDict.keys (config_cluster config)))
       []);;
  send_append_entries;;
  set_waiting_clients [].

(** [del self.waiting_clients[k]] *)
Definition del_waiting_clients (k : Z) : M L unit :=
  waiting_clients ← get_waiting_clients;
  waiting_clients ← getitem (PyDict.del k waiting_clients);
  set_waiting_clients waiting_clients.

(** The two loops of [Leader.send_client_append_response].  After the
    first loop [client_index] is still bound to the last key of
    [waiting_clients]; the second loop deletes that key once per
    element of [to_delete].  When [waiting_clients] is empty
    [client_index] is unbound, and [to_delete] is empty too. *)
Definition send_client_append_response : M L unit :=
  waiting_clients ← get_waiting_clients;
  l ← gets log;
  let answered :=
    filter (λ kv, (log_commitIndex l ≤ Qc_of_Z kv.1)%Qc) waiting_clients in
  for_each answered
    (λ kv, for_each kv.2 (λ client, client_send client (Result true)));;
  let to_delete := PyDict.keys answered in
  match last (PyDict.keys waiting_clients) with
  | Some client_index =>
      for_each to_delete (λ _, del_waiting_clients client_index)
  | None => mret tt
  end.

Definition Leader_on_peer_response_append
    (peer_id : PeerId) (msg : ResponseAppendMsg) : M L unit :=
  nextIndex ← get_nextIndex;
  set_nextIndex (<[peer_id := Qc_of_Z (ra_next_index msg)]> nextIndex);;
  v ← gets volatile;
  l ← gets log;
  nextIndex ← get_nextIndex;
  set_nextIndex (<[Id v := Qc_of_Z (log_index l + 1)]> nextIndex);;
  nextIndex ← get_nextIndex;
  (* there is a median: [nextIndex] has the key just set *)
  m ← getitem (median (map_to_list nextIndex).*2);
  let index := (m - Qc_of_Z 1)%Qc in
  set_log (log_commit index l);;
  send_client_append_response.

Definition Leader_on_client_append (protocol : Client) (data : Data) : M L unit :=
  p ← gets persist;
  let entry := {| entry_term := currentTerm p; entry_data := data |} in
  l ← gets log;
  set_log (log_append_entries [entry] (Qc_of_Z (log_index l)) l);;
  l ← gets log;
  waiting_clients ← get_waiting_clients;
  match PyDict.get (log_index l) waiting_clients with
  | Some clients =>
      set_waiting_clients
        (PyDict.set (log_index l) (clients ++ [protocol]) waiting_clients)
  | None =>
      set_waiting_clients
        (PyDict.set (log_index l) [protocol] waiting_clients)
  end.

(** *** Role changes *)

Definition teardown : M L unit :=
  r ← gets role;
  match r with
  | Follower | Candidate _ => emit ElectionTimerCancel
  | Leader _ _ => emit AppendTimerCancel
  end.

(** Modelled from the spec: [Orchestrator.change_state] is not in
    [states.py].  Section 4.7: call [teardown()] on the current role,
    construct the new role adopting the prior role's persistent cell,
    volatile state and log by reference, and install it. *)
Definition change_state (cls : RoleClass) : M L unit :=
  teardown;;
  match cls with
  | FollowerCls => set_role Follower;; Follower__init__
  | CandidateCls => Candidate__init__
  | LeaderCls => Leader__init__
  end.

Definition Candidate_on_peer_append_entries
    (peer_id : PeerId) (msg : AppendEntriesMsg) : M L unit :=
  change_state FollowerCls;;
  Follower_on_peer_append_entries peer_id msg.

Definition Candidate_on_peer_response_vote
    (peer_id : PeerId) (msg : ResponseVoteMsg) : M L unit :=
  votes_count ← get_votes_count;
  let votes_count := votes_count + Z.b2z (rsv_voteGranted msg) in
  set_role (Candidate votes_count);;
  if decide (Qc_of_Z (Z.of_nat (length (config_cluster config))) / Qc_of_Z 2
             < Qc_of_Z votes_count)%Qc
  then change_state LeaderCls
  else mret tt.

(** *** State: the handlers every role inherits *)

(** [config.cluster[self.volatile['leaderId']]]: no peer is called
    [None], so an unknown leader is a [KeyError]. *)
Definition State_on_client_append (protocol : Client) : M L unit :=
  v ← gets volatile;
  address ← getitem (leaderId v ≫= λ i, PyDict.get i (config_cluster config));
  client_send protocol (Redirect (Some address)).

Definition on_client_get (protocol : Client) : M L unit :=
  l ← gets log;
  client_send protocol (StateMachineValue (log_state_machine_data l)).

Definition on_client_diagnostic (protocol : Client) : M L unit :=
  r ← gets role;
  p ← gets persist;
  v ← gets volatile;
  l ← gets log;
  client_send protocol
    (Diagnostic
       {| diag_status := class_name r;
          diag_votedFor := votedFor p;
          diag_currentTerm := currentTerm p;
          diag_leaderId := leaderId v;
          diag_Id := Id v;
          diag_commitIndex := log_commitIndex l;
          diag_leaderStatus :=
            match r with
            | Leader ni wc => Some (ni, wc)
            | _ => None
            end |}).

(** [getattr(self, 'on_peer_' + msg['type'], None)] and the call, the
    [else] branch of [data_received_peer]. *)
Definition on_peer (peer_id : PeerId) (msg : PeerMsg) : M L unit :=
  r ← gets role;
  match r, msg with
  | Follower, RequestVote m => Follower_on_peer_request_vote peer_id m
  | Follower, AppendEntries m => Follower_on_peer_append_entries peer_id m
  | Candidate _, RequestVote m => Follower_on_peer_request_vote peer_id m
  | Candidate _, AppendEntries m => Candidate_on_peer_append_entries peer_id m
  | Candidate _, ResponseVote m => Candidate_on_peer_response_vote peer_id m
  | Leader _ _, ResponseAppend m => Leader_on_peer_response_append peer_id m
  | _, _ => mret tt
  end.

Equations? data_received_peer (peer_id : PeerId) (msg : PeerMsg) (n : Node L)
  : Outcome L unit by wf (role_rank n) lt :=
data_received_peer peer_id msg n
  with inspect (bool_decide (currentTerm (persist n) < msg_term msg)) := {
  | exist _ true _ with inspect (is_Follower (role n)) := {
    | exist _ true _ => set_currentTerm (msg_term msg) n
    | exist _ false Hrole =>
        let r := (set_currentTerm (msg_term msg);;
                  change_state FollowerCls) n in
        and_then r (data_received_peer peer_id msg (final r)) }
  | exist _ false _ => on_peer peer_id msg n }.
Proof.
  unfold role_rank. rewrite Hrole.
  destruct n as [[] ? ? ?]; simpl in *; try discriminate; lia.
Qed.

Definition data_received_client (protocol : Client) (msg : ClientMsg) : M L unit :=
  r ← gets role;
  match msg with
  | ClientAppend data =>
      if is_Leader r then Leader_on_client_append protocol data
      else State_on_client_append protocol
  | ClientGet => on_client_get protocol
  | ClientDiagnostic => on_client_diagnostic protocol
  | OtherClientMsg _ => mret tt
  end.
End Roles.

(** ** The event loop

    What reaches a node: a message from a peer, a message from a client,
    and the two timer callbacks.  [restart_election_timer] registers
    [orchestrator.change_state(Candidate)] and [send_append_entries]
    registers itself. *)

Inductive Input :=
| FromPeer (peer_id : PeerId) (msg : PeerMsg)
| FromClient (protocol : Client) (msg : ClientMsg)
| ElectionTimeout
| AppendTimeout.

Section EventLoop.
Context {L : Type} `{!LogManager L} (config : Config).

Definition election_timeout : M L unit := change_state config CandidateCls.

Definition append_timeout : M L unit := send_append_entries config.

Definition deliver (i : Input) : M L unit :=
  match i with
  | FromPeer peer_id msg => data_received_peer config peer_id msg
  | FromClient protocol msg => data_received_client config protocol msg
  | ElectionTimeout => election_timeout
  | AppendTimeout => append_timeout
  end.

(** The message [send_append_entries] builds for a peer whose entry in
    [nextIndex] is [next]. *)
Definition append_entries_for (next : Num) (n : Node L) : AppendEntriesMsg :=
  {| ae_term := currentTerm (persist n);
     ae_leaderCommit := log_commitIndex (log n);
     ae_leaderId := Id (volatile n);
     ae_prevLogIndex := (next - 1)%Qc;
     ae_entries := log_slice next (next + Qc_of_Z 2)%Qc (log n);
     ae_prevLogTerm := log_term (Some (next - 1)%Qc) (log n);
     ae_compact :=
       if decide (next ≤ Qc_of_Z (compacted_index (log_compacted (log n))))%Qc
       then Some {| compact_data := compacted_data (log_compacted (log n));
                    compact_term := compacted_term (log_compacted (log n));
                    compact_count := compacted_count (log_compacted (log n)) |}
       else None |}.

(** One round of [send_append_entries]: a message for every peer of
    [config.cluster] but the node itself, in the order of the cluster. *)
Definition append_entries_round (nextIndex : gmap PeerId Num) (n : Node L)
    : list Event :=
  peer_id ← PyDict.keys (config_cluster config);
  if decide (peer_id = Id (volatile n)) then []
  else match nextIndex !! peer_id with
       | Some next =>
           [SendPeer peer_id (AppendEntries (append_entries_for next n))]
       | None => []
       end.

(** A timer fires only while the role that armed it is installed:
    [teardown] cancels it. *)
Definition enabled (i : Input) (n : Node L) : bool :=
  match i with
  | ElectionTimeout => negb (is_Leader (role n))
  | AppendTimeout => is_Leader (role n)
  | _ => true
  end.

(** The nodes the event loop can be in.  After a handler raised, the
    loop goes on with the node as the handler left it. *)
Inductive reachable : Node L → Prop :=
| reachable_start stored : reachable (final (start config stored))
| reachable_deliver n i :
    reachable n → enabled i n = true → reachable (final (deliver i n)).

(** What every reachable node satisfies (see [reachable_well_formed]). *)
Definition well_formed (n : Node L) : Prop :=
  Id (volatile n) = config_id config
  ∧ match role n with
    | Follower => True
    | Candidate votes_count =>
        votedFor (persist n) = Some (Id (volatile n)) ∧ 1 ≤ votes_count
    | Leader nextIndex waiting_clients =>
        votedFor (persist n) = Some (Id (volatile n))
        ∧ leaderId (volatile n) = Some (Id (volatile n))
        ∧ (∀ peer_id, peer_id ∈ PyDict.keys (config_cluster config) →
                      is_Some (nextIndex !! peer_id))
        ∧ NoDup (PyDict.keys waiting_clients)
    end.
End EventLoop.

(** ** A log store to run the roles on

    [zatt/server/log.py] is not among the sources.  To run the roles on
    concrete nodes the interface is instantiated with the log store the
    specification describes. *)

Module SpecLog.
(** Modelled from the spec: the state of [LogManager] (sections 3 and
    4.2): the snapshot descriptor, the entries after the snapshot
    horizon, the commit index and the value of the state machine, which
    is taken to be the commands applied so far. *)
Record t := {
  compacted : Compacted;
  entries : list Entry;
  commitIndex : Num;
  state_machine : SMData }.

(** Modelled from the spec: positions are whole numbers there; a number
    that is not whole is rounded down. *)
Definition position (x : Num) : Z := Qfloor x.

Definition min (x y : Num) : Num := if decide (x ≤ y)%Qc then x else y.
Definition max (x y : Num) : Num := if decide (x ≤ y)%Qc then y else x.

(** Modelled from the spec: [index()] is
    [compacted.index + len(entries)]. *)
Definition index (l : t) : Z :=
  compacted_index (compacted l) + Z.of_nat (length (entries l)).

(** Modelled from the spec: entries are stored for the positions in
    [(compacted.index, lastIndex]]. *)
Definition entry_at (i : Z) (l : t) : option Entry :=
  if decide (compacted_index (compacted l) < i)
  then entries l !! Z.to_nat (i - compacted_index (compacted l) - 1)
  else None.

(** Modelled from the spec: [term(i = index())] is [compacted.term] when
    [i ≤ compacted.index] (the sentinel [0] when there is no snapshot),
    else the term of the entry at [i]. *)
Definition term (i : option Num) (l : t) : option Z :=
  let i := from_option position (index l) i in
  if decide (i ≤ compacted_index (compacted l))
  then Some (compacted_term (compacted l))
  else entry_term <$> entry_at i l.

(** Modelled from the spec: [slice(lo, hi)] is the entries in the
    half-open range, clamped to the entries in memory. *)
Definition slice (lo hi : Num) (l : t) : list Entry :=
  let first := Z.max (position lo) (compacted_index (compacted l) + 1) in
  let off := Z.to_nat (first - compacted_index (compacted l) - 1) in
  take (Z.to_nat (position hi - first)) (drop off (entries l)).

(** The number of leading incoming entries [new] that agree in term with
    the stored entries [old] at the same positions. *)
Fixpoint agreeing (old new : list Entry) : nat :=
  match old, new with
  | o :: old', e :: new' =>
      if decide (entry_term o = entry_term e) then S (agreeing old' new')
      else 0%nat
  | _, _ => 0%nat
  end.

(** Modelled from the spec: [append_entries(entries, prev_index)]
    truncates the stored entries after [prev_index] from the first one
    that conflicts (in term) with an incoming entry, then appends the
    incoming entries beyond the stored ones; stored entries that match
    are left untouched. *)
Definition append_entries (new : list Entry) (prev_index : Num) (l : t) : t :=
  let off := Z.to_nat (position prev_index - compacted_index (compacted l)) in
  let kept := take off (entries l) in
  let old := drop off (entries l) in
  let k := agreeing old new in
  let old' := if decide (k < length new)%nat then take k old else old in
  {| compacted := compacted l;
     entries := kept ++ old' ++ drop (length old') new;
     commitIndex := commitIndex l;
     state_machine := state_machine l |}.

(** Modelled from the spec: [commit(new_commit)] sets
    [commitIndex = min(max(commitIndex, new_commit), index())] and
    applies the newly committed entries in order. *)
Definition commit (new_commit : Num) (l : t) : t :=
  let c := min (max (commitIndex l) new_commit) (Qc_of_Z (index l)) in
  let lo := Z.to_nat (position (commitIndex l) - compacted_index (compacted l)) in
  let hi := Z.to_nat (position c - compacted_index (compacted l)) in
  {| compacted := compacted l;
     entries := entries l;
     commitIndex := c;
     state_machine :=
       state_machine l ++ (entry_data <$> drop lo (take hi (entries l))) |}.

(** Modelled from the spec: a log store that starts at a snapshot
    replacing [count] entries: no entry in memory, [compacted.index] and
    [commitIndex] at [count], the state machine at the snapshot. *)
Definition from_compact (count term : Z) (data : SMData) : t :=
  {| compacted := {| compacted_index := count; compacted_term := term;
                     compacted_data := data; compacted_count := count |};
     entries := [];
     commitIndex := Qc_of_Z count;
     state_machine := data |}.

(** Modelled from the spec: the empty log store, with no snapshot. *)
Definition new : t := from_compact 0 0 [].
End SpecLog.

#[global] Instance SpecLog_LogManager : LogManager SpecLog.t := {
  log_new := SpecLog.new;
  log_from_compact := SpecLog.from_compact;
  log_index := SpecLog.index;
  log_commitIndex := SpecLog.commitIndex;
  log_term := SpecLog.term;
  log_slice := SpecLog.slice;
  log_append_entries := SpecLog.append_entries;
  log_commit := SpecLog.commit;
  log_compacted := SpecLog.compacted;
  log_state_machine_data := SpecLog.state_machine }.

(** ** A three-node cluster

    Node 1 of a cluster of three starts, times out and stands for
    election, is elected by the vote of node 2, and takes two client
    commands. *)
Module Scenario.
Definition config : Config :=
  {| config_id := 1;
     config_cluster :=
       [(1, "10.0.0.1:5254"); (2, "10.0.0.2:5254"); (3, "10.0.0.3:5254")] |}.

Definition started : Node SpecLog.t := final (start config None).

Definition candidate : Node SpecLog.t :=
  final (change_state config CandidateCls started).

Definition leader : Node SpecLog.t :=
  final (data_received_peer config 2
           (ResponseVote {| rsv_term := 1; rsv_voteGranted := true |})
           candidate).

Definition leader_x : Node SpecLog.t :=
  final (data_received_client config 7 (ClientAppend "x") leader).

Definition leader_xy : Node SpecLog.t :=
  final (data_received_client config 8 (ClientAppend "y") leader_x).

(** A follower of term 1 that voted for node 2. *)
Definition voted : Node SpecLog.t :=
  final (data_received_peer config 2
           (RequestVote {| rv_term := 1; rv_candidateId := 2;
                           rv_lastLogIndex := 0; rv_lastLogTerm := Some 0 |})
           (final (data_received_peer config 2
                     (OtherPeerMsg "ping" 1) started))).

(** The leader's attributes, read off a node. *)
Definition nextIndex_of (n : Node SpecLog.t) : gmap PeerId Num :=
  match role n with Leader nextIndex _ => nextIndex | _ => ∅ end.

Definition waiting_clients_of (n : Node SpecLog.t) : list (Z * list Client) :=
  match role n with Leader _ waiting_clients => waiting_clients | _ => [] end.

(** An empty [append_entries] of term 2 from node 3. *)
Definition heartbeat : AppendEntriesMsg :=
  {| ae_term := 2; ae_leaderCommit := Qc_of_Z 0; ae_leaderId := 3;
     ae_prevLogIndex := Qc_of_Z 0; ae_entries := [];
     ae_prevLogTerm := None; ae_compact := None |}.

(** An [append_entries] of term 0 from node 3 that carries a snapshot
    replacing four entries. *)
Definition stale_snapshot : AppendEntriesMsg :=
  {| ae_term := 0; ae_leaderCommit := Qc_of_Z 4; ae_leaderId := 3;
     ae_prevLogIndex := Qc_of_Z 4; ae_entries := [];
     ae_prevLogTerm := Some 0;
     ae_compact := Some {| compact_data := ["a"; "b"; "c"; "d"];
                           compact_term := 0; compact_count := 4 |} |}.

(** The same message without the snapshot, and a vote request of
    term 0 from node 3. *)
Definition stale_append : AppendEntriesMsg :=
  {| ae_term := 0; ae_leaderCommit := Qc_of_Z 4; ae_leaderId := 3;
     ae_prevLogIndex := Qc_of_Z 4; ae_entries := [];
     ae_prevLogTerm := Some 0; ae_compact := None |}.

Definition stale_vote : RequestVoteMsg :=
  {| rv_term := 0; rv_candidateId := 3; rv_lastLogIndex := 0;
     rv_lastLogTerm := Some 0 |}.
End Scenario.

(** More messages and a node for the three-node cluster. *)
Module Cases.
Import Scenario.

(** A vote request of term 1 from node 3, and a vote given in term 1. *)
Definition rival_vote : RequestVoteMsg :=
  {| rv_term := 1; rv_candidateId := 3; rv_lastLogIndex := 0;
     rv_lastLogTerm := Some 0 |}.

Definition granted_vote : ResponseVoteMsg :=
  {| rsv_term := 1; rsv_voteGranted := true |}.


(** A Leader object whose [nextIndex] has no entry at all; the event
    loop does not get a node there. *)
Definition without_nextIndex : Node SpecLog.t := with_role (Leader ∅ []) leader.
End Cases.

(** * Properties *)

(** ** Running the monad *)

Section MonadLaws.
Context {L : Type}.
Implicit Types n : Node L.

Lemma after_nil {A} (r : Outcome L A) : after [] r = r.
Proof. by destruct r. Qed.

Lemma after_after {A} evs evs' (r : Outcome L A) :
  after evs (after evs' r) = after (evs ++ evs') r.
Proof. unfold after; simpl. by rewrite app_assoc. Qed.

Lemma bind_ret {A B} (a : A) (k : A → M L B) n : (mret a ≫= k) n = k a n.
Proof. unfold mbind, M_mbind, M_bind; simpl. by destruct (k a n). Qed.

Lemma bind_gets {A B} (f : Node L → A) (k : A → M L B) n :
  (gets f ≫= k) n = k (f n) n.
Proof. unfold mbind, M_mbind, M_bind; simpl. by destruct (k (f n) n). Qed.

Lemma bind_modify {B} (f : Node L → Node L) (k : unit → M L B) n :
  (modify f ≫= k) n = k tt (f n).
Proof. unfold mbind, M_mbind, M_bind; simpl. by destruct (k tt (f n)). Qed.

Lemma bind_emit {B} (e : Event) (k : unit → M L B) n :
  (emit e ≫= k) n = after [e] (k tt n).
Proof. reflexivity. Qed.

Lemma bind_raise {A B} (e : Exn) (k : A → M L B) n :
  (raise e ≫= k) n = raise e n.
Proof. reflexivity. Qed.

Lemma bind_assoc {A B C} (m : M L A) (f : A → M L B) (g : B → M L C) n :
  ((m ≫= f) ≫= g) n = (m ≫= λ a, f a ≫= g) n.
Proof.
  unfold mbind, M_mbind, M_bind; simpl.
  destruct (m n) as [[a|e] n1 ev1]; simpl; [|done].
  destruct (f a n1) as [[b|e] n2 ev2]; simpl; [|done].
  by rewrite app_assoc.
Qed.

Lemma bind_run {A B} (m : M L A) (k : A → M L B) n :
  (m ≫= k) n =
    match result (m n) with
    | Ok a => after (events (m n)) (k a (final (m n)))
    | Raise e => {| result := Raise e; final := final (m n);
                    events := events (m n) |}
    end.
Proof. reflexivity. Qed.
End MonadLaws.

Ltac step :=
  first [ rewrite bind_assoc | rewrite bind_ret | rewrite bind_gets
        | rewrite bind_modify | rewrite bind_emit | rewrite bind_raise
        | rewrite after_after | rewrite after_nil ];
  cbv beta.
Ltac steps := repeat step.
Ltac open_handler :=
  unfold restart_election_timer, set_role, set_currentTerm, set_votedFor,
    set_leaderId, set_log, send_peer, broadcast_peers, client_send.

(** ** Numbers *)

(** [votes > size / 2] with true division, on integers. *)
Lemma half_lt_iff (size votes : Z) :
  (Qc_of_Z size / Qc_of_Z 2 < Qc_of_Z votes)%Qc ↔ size < 2 * votes.
Proof.
  unfold Qclt, Qcdiv, Qcmult, Qcinv, Q2Qc, Qc_of_Z. cbn [this].
  rewrite !Qred_correct. unfold Qlt. simpl. lia.
Qed.

(** ** Dicts *)

Section Dict.
Context {K V : Type} `{EqDecision K}.
Implicit Types d : list (K * V).

Lemma PyDict_del_absent k d : k ∉ PyDict.keys d → PyDict.del k d = None.
Proof.
  unfold PyDict.keys. induction d as [|[k' v'] d IH]; [done|].
  rewrite fmap_cons, not_elem_of_cons. intros [Hne Hnotin]. simpl in *.
  rewrite decide_False by done. by rewrite IH.
Qed.

Lemma PyDict_del_last k v d :
  k ∉ PyDict.keys d → PyDict.del k (d ++ [(k, v)]) = Some d.
Proof.
  unfold PyDict.keys. induction d as [|[k' v'] d IH]; intros Hnotin; simpl.
  { by rewrite decide_True. }
  rewrite fmap_cons, not_elem_of_cons in Hnotin. destruct Hnotin as [Hne Hnotin].
  simpl in *. rewrite decide_False by done. by rewrite IH.
Qed.

(** A dict with at least one key ends in the binding of its last key,
    and no earlier binding has that key. *)
Lemma PyDict_last_key k d :
  NoDup (PyDict.keys d) → last (PyDict.keys d) = Some k →
  ∃ d' v, d = d' ++ [(k, v)] ∧ k ∉ PyDict.keys d'.
Proof.
  unfold PyDict.keys. intros Hnodup Hlast.
  destruct (last_Some (d.*1) k) as [[ks Hks] _]; [done|].
  destruct d as [|kv d _] using rev_ind.
  { by destruct ks. }
  rewrite fmap_app in Hks. simpl in Hks.
  apply app_inj_tail in Hks as [Hks Hk]. destruct kv as [k' v]. simpl in Hk.
  subst k'. exists d, v. split; [done|].
  rewrite fmap_app in Hnodup. apply NoDup_app in Hnodup as (_ & Hdisj & _).
  intros Hin. apply (Hdisj k Hin). simpl. left.
Qed.
End Dict.

(** ** The median *)

Lemma median_is_Some (data : list Num) : data ≠ [] → is_Some (median data).
Proof.
  intros Hne. unfold median.
  assert (Hlen : length (merge_sort Qcle data) = length data).
  { apply Permutation_length, merge_sort_Permutation. }
  set (sorted := merge_sort Qcle data) in *.
  assert (Hpos : (0 < length sorted)%nat).
  { rewrite Hlen. destruct data; [done|simpl; lia]. }
  case_decide; [lia|].
  assert (Hmid : (length sorted / 2 < length sorted)%nat).
  { apply Nat.div_lt; lia. }
  destruct (Nat.odd (length sorted)) eqn:Hodd.
  - by apply lookup_lt_is_Some_2.
  - destruct (lookup_lt_is_Some_2 sorted (length sorted / 2 - 1)) as [a ->];
      [lia|].
    destruct (lookup_lt_is_Some_2 sorted (length sorted / 2)) as [b ->];
      [lia|].
    by eexists.
Qed.

Example median_odd :
  median [Qc_of_Z 3; Qc_of_Z 1; Qc_of_Z 2] = Some (Qc_of_Z 2).
Proof. by vm_compute. Qed.

Example median_even :
  median [Qc_of_Z 3; Qc_of_Z 1; Qc_of_Z 1; Qc_of_Z 2] = Some (Q2Qc (3 # 2)).
Proof. by vm_compute. Qed.

(** ** The handlers *)

Section Handlers.
Context {L : Type} `{!LogManager L} (config : Config).
Implicit Types n : Node L.

Lemma data_received_peer_cases peer_id msg n :
  data_received_peer config peer_id msg n =
    if bool_decide (currentTerm (persist n) < msg_term msg) then
      if is_Follower (role n) then set_currentTerm (msg_term msg) n
      else
        let r := (set_currentTerm (msg_term msg);;
                  change_state config FollowerCls) n in
        and_then r (data_received_peer config peer_id msg (final r))
    else on_peer config peer_id msg n.
Proof.
  funelim (data_received_peer config peer_id msg n).
  - by rewrite e.
  - by rewrite e, e0.
  - by rewrite e, Hrole.
Qed.

Lemma Follower_on_peer_request_vote_run peer_id msg n :
  let granted :=
    bool_decide (currentTerm (persist n) ≤ rv_term msg)
    && bool_decide (votedFor (persist n) = None
                    ∨ votedFor (persist n) = Some (rv_candidateId msg))
    && bool_decide (log_index (log n) ≤ rv_lastLogIndex msg) in
  Follower_on_peer_request_vote peer_id msg n =
    {| result := Ok tt;
       final := (if granted
                 then with_votedFor (Some (rv_candidateId msg)) n else n);
       events :=
         [ElectionTimerRestart;
          SendPeer peer_id
            (ResponseVote {| rsv_term := currentTerm (persist n);
                             rsv_voteGranted := granted |})] |}.
Proof.
  unfold Follower_on_peer_request_vote. open_handler. steps.
  set (granted := _ && _ && _). destruct granted; by steps.
Qed.


Lemma Follower_on_peer_append_entries_run peer_id msg n :
  let n' :=
    match ae_compact msg with
    | Some c =>
        with_leaderId (Some (ae_leaderId msg))
          (with_log (log_from_compact (compact_count c) (compact_term c)
                                      (compact_data c)) n)
    | None =>
        if success msg n then
          with_leaderId (Some (ae_leaderId msg))
            (with_log
               (log_commit (ae_leaderCommit msg)
                  (log_append_entries (ae_entries msg) (ae_prevLogIndex msg)
                     (log n))) n)
        else n
    end in
  Follower_on_peer_append_entries peer_id msg n =
    {| result := Ok tt; final := n';
       events :=
         [ElectionTimerRestart;
          SendPeer peer_id
            (ResponseAppend {| ra_term := currentTerm (persist n);
                               ra_next_index := log_index (log n') + 1 |})] |}.
Proof.
  unfold Follower_on_peer_append_entries. open_handler. steps.
  destruct (ae_compact msg) as [c|]; [by steps|].
  destruct (success msg n); by steps.
Qed.

Lemma Follower_on_peer_request_vote_currentTerm peer_id msg n :
  currentTerm (persist (final (Follower_on_peer_request_vote peer_id msg n)))
  = currentTerm (persist n).
Proof.
  rewrite Follower_on_peer_request_vote_run. simpl.
  by destruct (_ && _ && _).
Qed.

Lemma on_peer_Follower_currentTerm peer_id msg n :
  role n = Follower →
  currentTerm (persist (final (on_peer config peer_id msg n)))
  = currentTerm (persist n).
Proof.
  intros Hr. unfold on_peer. steps. rewrite Hr.
  destruct msg; try done.
  - apply Follower_on_peer_request_vote_currentTerm.
  - rewrite Follower_on_peer_append_entries_run. simpl.
    destruct (ae_compact m); [done|]. by destruct (success m n).
Qed.

Lemma change_state_Follower_run n :
  change_state config FollowerCls n =
    {| result := Ok tt;
       final := with_votedFor None (with_role Follower n);
       events :=
         [if is_Leader (role n) then AppendTimerCancel else ElectionTimerCancel;
          ElectionTimerRestart] |}.
Proof.
  unfold change_state, teardown, Follower__init__. open_handler. steps.
  destruct (role n); by steps.
Qed.

(** C9. A Follower that receives a peer message of a term above its
    own only records the new term: the handler returns without calling
    a role handler and without sending or scheduling anything, and
    [votedFor], the log, [leaderId] and the role stay as they were. *)
Theorem C9_follower_higher_term peer_id msg n :
  role n = Follower →
  currentTerm (persist n) < msg_term msg →
  let o := data_received_peer config peer_id msg n in
  o = {| result := Ok tt; final := with_currentTerm (msg_term msg) n;
         events := [] |}
  ∧ role (final o) = Follower
  ∧ currentTerm (persist (final o)) = msg_term msg
  ∧ votedFor (persist (final o)) = votedFor (persist n)
  ∧ log (final o) = log n
  ∧ volatile (final o) = volatile n.
Proof.
  intros Hr Ht. simpl. rewrite data_received_peer_cases.
  rewrite bool_decide_eq_true_2 by done. rewrite Hr. simpl. done.
Qed.

(** C10. In [Follower.on_peer_append_entries] a message whose
    [prevLogTerm] is [None] passes the previous-log-term check whatever
    the log holds, so [success] is the term check alone; for a message
    without snapshot fields the entries are appended and committed and
    [leaderId] is set exactly when the message term is at least
    [currentTerm], and the node is unchanged otherwise. *)
Theorem C10_null_prevLogTerm peer_id msg n :
  ae_prevLogTerm msg = None →
  prev_log_term_match msg n = true
  ∧ success msg n = bool_decide (currentTerm (persist n) ≤ ae_term msg)
  ∧ (ae_compact msg = None →
     let o := Follower_on_peer_append_entries peer_id msg n in
     result o = Ok tt
     ∧ final o =
         (if bool_decide (currentTerm (persist n) ≤ ae_term msg) then
            with_leaderId (Some (ae_leaderId msg))
              (with_log
                 (log_commit (ae_leaderCommit msg)
                    (log_append_entries (ae_entries msg)
                       (ae_prevLogIndex msg) (log n))) n)
          else n)
     ∧ events o =
         [ElectionTimerRestart;
          SendPeer peer_id
            (ResponseAppend
               {| ra_term := currentTerm (persist n);
                  ra_next_index := log_index (log (final o)) + 1 |})]).
Proof.
  intros Hnull.
  assert (Hmatch : prev_log_term_match msg n = true).
  { unfold prev_log_term_match. by rewrite Hnull. }
  assert (Hsucc : success msg n
                  = bool_decide (currentTerm (persist n) ≤ ae_term msg)).
  { unfold success, term_is_current. rewrite Hmatch. apply andb_true_r. }
  split; [done|]. split; [done|]. intros Hc.
  rewrite Follower_on_peer_append_entries_run. simpl.
  by rewrite Hc, Hsucc.
Qed.

(** C3, as amended.  A [request_vote] of a term below [currentTerm]
    received by a Follower or a Candidate, and an [append_entries] of
    such a term without snapshot fields received by a Follower, are
    answered with the current term (a refused vote, or the node's own
    next index) and leave the node, and so the persistent cell, the
    log with its commit index and [leaderId], unchanged. *)
Theorem C3_stale_term_request peer_id n :
  (∀ m, rv_term m < currentTerm (persist n) →
        is_Leader (role n) = false →
        data_received_peer config peer_id (RequestVote m) n =
          {| result := Ok tt; final := n;
             events :=
               [ElectionTimerRestart;
                SendPeer peer_id
                  (ResponseVote {| rsv_term := currentTerm (persist n);
                                   rsv_voteGranted := false |})] |})
  ∧ (∀ m, ae_term m < currentTerm (persist n) →
          role n = Follower →
          ae_compact m = None →
          data_received_peer config peer_id (AppendEntries m) n =
            {| result := Ok tt; final := n;
               events :=
                 [ElectionTimerRestart;
                  SendPeer peer_id
                    (ResponseAppend
                       {| ra_term := currentTerm (persist n);
                          ra_next_index := log_index (log n) + 1 |})] |}).
Proof.
  split; intros m Ht.
  - intros Hr. rewrite data_received_peer_cases.
    rewrite bool_decide_eq_false_2 by (simpl; lia).
    assert (Hon : on_peer config peer_id (RequestVote m) n
                  = Follower_on_peer_request_vote peer_id m n).
    { unfold on_peer. steps. by destruct (role n). }
    rewrite Hon, Follower_on_peer_request_vote_run. cbv zeta.
    by rewrite bool_decide_eq_false_2 by lia.
  - intros Hr Hc. rewrite data_received_peer_cases.
    rewrite bool_decide_eq_false_2 by (simpl; lia).
    unfold on_peer. steps. rewrite Hr.
    rewrite Follower_on_peer_append_entries_run. simpl. rewrite Hc.
    unfold success, term_is_current.
    rewrite bool_decide_eq_false_2 by lia. done.
Qed.
(** A loop whose body returns and leaves the node alone does so too. *)
Lemma for_each_pure {A} (xs : list A) (body : A → M L unit) n :
  (∀ x, x ∈ xs → result (body x n) = Ok tt ∧ final (body x n) = n) →
  result (for_each xs body n) = Ok tt ∧ final (for_each xs body n) = n.
Proof.
  induction xs as [|x xs IH]; intros Hbody; [done|].
  destruct (Hbody x) as [Hres Hfin]; [left|].
  destruct IH as [IHres IHfin].
  { intros y Hy. apply Hbody. by right. }
  cbn [for_each]. rewrite bind_run, Hres, Hfin. simpl.
  by rewrite IHres, IHfin.
Qed.

Lemma send_append_entries_to_pure peer_id nextIndex waiting_clients n :
  role n = Leader nextIndex waiting_clients →
  is_Some (nextIndex !! peer_id) →
  result (send_append_entries_to peer_id n) = Ok tt
  ∧ final (send_append_entries_to peer_id n) = n.
Proof.
  intros Hr [next Hnext]. unfold send_append_entries_to, get_nextIndex.
  open_handler. steps. case_decide; [done|]. steps. rewrite Hr. steps.
  rewrite Hnext. unfold getitem. by steps.
Qed.

Lemma Leader__init___run n :
  let nextIndex : gmap PeerId Num :=
    list_to_map
      ((λ x, (x, (log_commitIndex (log n) + Qc_of_Z 1)%Qc))
         <$> PyDict.keys (config_cluster config)) in
  result (Leader__init__ config n) = Ok tt
  ∧ final (Leader__init__ config n) =
      with_role (Leader nextIndex [])
        (with_leaderId (Some (Id (volatile n))) n).
Proof.
  cbv zeta. unfold Leader__init__, send_append_entries, set_waiting_clients.
  open_handler. steps. simpl.
  set (ni := list_to_map _). set (n' := with_role _ _).
  rewrite bind_run.
  destruct (for_each_pure (PyDict.keys (config_cluster config))
              send_append_entries_to n') as [Hres Hfin].
  { intros x Hx. apply (send_append_entries_to_pure x ni []); [done|].
    destruct (ni !! x) eqn:Hx'; [by eauto|].
    apply not_elem_of_list_to_map in Hx'. destruct Hx'.
    rewrite <- list_fmap_compose. unfold compose. simpl.
    by rewrite list_fmap_id. }
  rewrite Hres, Hfin. by steps.
Qed.

Lemma Candidate__init___run n :
  Candidate__init__ n =
    {| result := Ok tt;
       final :=
         with_role (Candidate 1)
           (with_votedFor (Some (Id (volatile n)))
              (with_currentTerm (currentTerm (persist n) + 1)
                 (with_votedFor None n)));
       events :=
         [ElectionTimerRestart;
          BroadcastPeers
            (RequestVote {| rv_term := currentTerm (persist n) + 1;
                            rv_candidateId := Id (volatile n);
                            rv_lastLogIndex := log_index (log n);
                            rv_lastLogTerm := log_term None (log n) |})] |}.
Proof.
  unfold Candidate__init__, Follower__init__, send_vote_requests.
  open_handler. by steps.
Qed.

Lemma change_state_Leader_role n :
  result (change_state config LeaderCls n) = Ok tt
  ∧ is_Leader (role (final (change_state config LeaderCls n))) = true.
Proof.
  unfold change_state, teardown. steps.
  destruct (Leader__init___run n) as [Hres Hfin].
  destruct (role n); steps; unfold after; cbn [result final events];
    by rewrite Hres, Hfin.
Qed.

(** C8. [Candidate.__init__] returns with [votes_count = 1],
    [currentTerm] one higher and [votedFor] the node's own id.  For a
    Candidate, [on_peer_response_vote] returns after adding
    [voteGranted] (0 or 1) to [votes_count]; the node is a Leader
    afterwards exactly when the new count exceeds half the cluster size,
    that is when twice the count exceeds the size: then the handler is
    [change_state(Leader)] on the node with the new count, and otherwise
    only the count has changed. *)
Theorem C8_candidate n :
  (let o := Candidate__init__ n in
   result o = Ok tt
   ∧ role (final o) = Candidate 1
   ∧ currentTerm (persist (final o)) = currentTerm (persist n) + 1
   ∧ votedFor (persist (final o)) = Some (Id (volatile n)))
  ∧ (∀ peer_id msg votes_count,
       role n = Candidate votes_count →
       let o := Candidate_on_peer_response_vote config peer_id msg n in
       let votes_count' := votes_count + Z.b2z (rsv_voteGranted msg) in
       let majority :=
         (Qc_of_Z (Z.of_nat (length (config_cluster config))) / Qc_of_Z 2
          < Qc_of_Z votes_count')%Qc in
       0 ≤ Z.b2z (rsv_voteGranted msg) ≤ 1
       ∧ (majority ↔
          Z.of_nat (length (config_cluster config)) < 2 * votes_count')
       ∧ result o = Ok tt
       ∧ (is_Leader (role (final o)) = true ↔ majority)
       ∧ (majority →
          o = change_state config LeaderCls
                (with_role (Candidate votes_count') n))
       ∧ (¬ majority →
          o = {| result := Ok tt;
                 final := with_role (Candidate votes_count') n;
                 events := [] |})).
Proof.
  split.
  { cbv zeta. by rewrite Candidate__init___run. }
  intros peer_id msg vc Hr. cbv zeta.
  split; [by destruct (rsv_voteGranted msg)|].
  split; [apply half_lt_iff|].
  unfold Candidate_on_peer_response_vote, get_votes_count. open_handler.
  steps. rewrite Hr. steps.
  set (n' := with_role _ n).
  destruct (change_state_Leader_role n') as [Hres Hlead].
  case_decide as Hmaj; steps.
  - by rewrite Hres, Hlead.
  - simpl. repeat split; done.
Qed.
Lemma with_role_same n : with_role (role n) n = n.
Proof. by destruct n. Qed.

Lemma del_waiting_clients_run k nextIndex waiting_clients n :
  role n = Leader nextIndex waiting_clients →
  del_waiting_clients k n =
    match PyDict.del k waiting_clients with
    | Some waiting_clients' =>
        {| result := Ok tt;
           final := with_role (Leader nextIndex waiting_clients') n;
           events := [] |}
    | None => {| result := Raise KeyError; final := n; events := [] |}
    end.
Proof.
  intros Hr. unfold del_waiting_clients, get_waiting_clients,
    set_waiting_clients, getitem.
  open_handler. steps. rewrite Hr. steps.
  destruct (PyDict.del k waiting_clients); steps; [|done].
  rewrite Hr. by steps.
Qed.

(** The second loop of [send_client_append_response] only ever changes
    [waiting_clients]. *)
Lemma delete_loop_frame nextIndex (k : Z) (to_delete : list Z)
    waiting_clients n :
  role n = Leader nextIndex waiting_clients →
  ∃ waiting_clients',
    final (for_each to_delete (λ _, del_waiting_clients k) n)
    = with_role (Leader nextIndex waiting_clients') n.
Proof.
  revert waiting_clients n.
  induction to_delete as [|i to_delete IH]; intros wc n Hr.
  { exists wc. by rewrite <- Hr, with_role_same. }
  cbn [for_each]. rewrite bind_run, (del_waiting_clients_run _ _ _ _ Hr).
  destruct (PyDict.del k wc) as [wc'|]; cbn [result final events];
    [|exists wc; by rewrite <- Hr, with_role_same].
  destruct (IH wc' (with_role (Leader nextIndex wc') n)) as [wc'' Hfin];
    [done|].
  exists wc''. unfold after; cbn [final]. by rewrite Hfin.
Qed.

Lemma send_client_append_response_frame nextIndex waiting_clients n :
  role n = Leader nextIndex waiting_clients →
  ∃ waiting_clients',
    final (send_client_append_response n)
    = with_role (Leader nextIndex waiting_clients') n.
Proof.
  intros Hr. unfold send_client_append_response, get_waiting_clients.
  steps. rewrite Hr. steps. rewrite bind_run.
  set (answered := filter _ waiting_clients).
  destruct (for_each_pure answered
              (λ kv, for_each kv.2
                       (λ client, client_send client (Result true))) n)
    as [Hres Hfin].
  { intros kv _. by apply for_each_pure. }
  rewrite Hres, Hfin. unfold after.
  destruct (last _) as [k|]; cbn [final].
  - by apply (delete_loop_frame nextIndex _ _ waiting_clients).
  - exists waiting_clients. by rewrite <- Hr, with_role_same.
Qed.

Lemma State_on_client_append_known protocol i address n :
  leaderId (volatile n) = Some i →
  PyDict.get i (config_cluster config) = Some address →
  State_on_client_append config protocol n =
    {| result := Ok tt; final := n;
       events := [ClientSend protocol (Redirect (Some address))] |}.
Proof.
  intros Hl Ha. unfold State_on_client_append, getitem. open_handler. steps.
  rewrite Hl. simpl. rewrite Ha. by steps.
Qed.

(** C6, what the code does.  A client [append] received by a node that
    is not the Leader and knows no leader ([leaderId] is [None]) ends
    in a [KeyError] from [config.cluster[None]]: nothing is sent to the
    client and the node is unchanged.  (With a known leader the
    redirect is sent, [State_on_client_append_known].) *)
Theorem C6_append_unknown_leader protocol data n :
  is_Leader (role n) = false →
  leaderId (volatile n) = None →
  data_received_client config protocol (ClientAppend data) n =
    {| result := Raise KeyError; final := n; events := [] |}.
Proof.
  intros Hr Hl. unfold data_received_client. steps. rewrite Hr.
  unfold State_on_client_append, getitem. steps. by rewrite Hl.
Qed.

Lemma notify_clients_run (answered : list (Z * list Client)) n :
  for_each answered
    (λ kv, for_each kv.2 (λ client, client_send client (Result true))) n
  = {| result := Ok tt; final := n;
       events :=
         kv ← answered;
         (λ client, ClientSend client (Result true)) <$> kv.2 |}.
Proof.
  induction answered as [|[i clients] answered IH]; [done|].
  cbn [for_each]. rewrite bind_run.
  assert (Hin : for_each clients
                  (λ client, client_send client (Result true)) n
                = {| result := Ok tt; final := n;
                     events := (λ client, ClientSend client (Result true))
                                 <$> clients |}).
  { clear. induction clients as [|c clients IH]; [done|].
    cbn [for_each]. set (rest := for_each clients _) in *.
    unfold client_send. rewrite bind_emit. cbv beta. by rewrite IH. }
  cbn [snd]. rewrite Hin. cbn [result final events]. by rewrite IH.
Qed.

Lemma delete_loop_quiet k (to_delete : list Z) n :
  events (for_each to_delete (λ _, del_waiting_clients k) n) = [].
Proof.
  revert n. induction to_delete as [|i to_delete IH]; intros n; [done|].
  cbn [for_each]. rewrite bind_run.
  assert (Hdel : events (del_waiting_clients k n) = []).
  { unfold del_waiting_clients, get_waiting_clients, set_waiting_clients,
      getitem.
    open_handler. steps. destruct (role n); steps; try done.
    destruct (PyDict.del k _); steps; [|done].
    destruct (role n); by steps. }
  rewrite Hdel. destruct (result _); [|done].
  unfold after; cbn [events]. by rewrite IH.
Qed.

Lemma send_client_append_response_events nextIndex waiting_clients n :
  role n = Leader nextIndex waiting_clients →
  events (send_client_append_response n) =
    kv ← filter (λ kv, (log_commitIndex (log n) ≤ Qc_of_Z kv.1)%Qc)
           waiting_clients;
    (λ client, ClientSend client (Result true)) <$> kv.2.
Proof.
  intros Hr. unfold send_client_append_response, get_waiting_clients.
  steps. rewrite Hr. steps. rewrite bind_run, notify_clients_run.
  cbn [result final events]. unfold after. 
  destruct (last _) as [k|]; [|by rewrite app_nil_r].
  rewrite delete_loop_quiet. by rewrite app_nil_r.
Qed.
Lemma delete_loop_run nextIndex k v (to_delete : list Z) d n :
  role n = Leader nextIndex (d ++ [(k, v)]) →
  k ∉ PyDict.keys d →
  for_each to_delete (λ _, del_waiting_clients k) n =
    match to_delete with
    | [] => {| result := Ok tt; final := n; events := [] |}
    | [_] => {| result := Ok tt; final := with_role (Leader nextIndex d) n;
                events := [] |}
    | _ :: _ :: _ =>
        {| result := Raise KeyError; final := with_role (Leader nextIndex d) n;
           events := [] |}
    end.
Proof.
  intros Hr Hnotin. destruct to_delete as [|i [|j to_delete]]; [done| |].
  - cbn [for_each]. rewrite bind_run, (del_waiting_clients_run _ _ _ _ Hr).
    by rewrite PyDict_del_last.
  - cbn [for_each]. rewrite bind_run, (del_waiting_clients_run _ _ _ _ Hr).
    rewrite PyDict_del_last by done. cbn [result final events].
    rewrite bind_run.
    rewrite (del_waiting_clients_run k nextIndex d) by done.
    by rewrite PyDict_del_absent.
Qed.

(** What [send_client_append_response] does: the clients of every entry
    whose index is at least [commitIndex] are notified; if there is such
    an entry the last key of [waiting_clients] is deleted, and if there
    are two or more the second [del] of that key raises. *)
Lemma send_client_append_response_run nextIndex waiting_clients n :
  role n = Leader nextIndex waiting_clients →
  NoDup (PyDict.keys waiting_clients) →
  let answered :=
    filter (λ kv, (log_commitIndex (log n) ≤ Qc_of_Z kv.1)%Qc)
      waiting_clients in
  send_client_append_response n =
    {| result := match answered with
                 | _ :: _ :: _ => Raise KeyError
                 | _ => Ok tt
                 end;
       final := match answered with
                | [] => n
                | _ :: _ =>
                    with_role (Leader nextIndex (removelast waiting_clients)) n
                end;
       events :=
         kv ← answered;
         (λ client, ClientSend client (Result true)) <$> kv.2 |}.
Proof.
  intros Hr Hnodup answered.
  unfold send_client_append_response, get_waiting_clients.
  steps. rewrite Hr. steps. rewrite bind_run, notify_clients_run.
  cbn [result final events]. fold answered.
  destruct (last (PyDict.keys waiting_clients)) as [k|] eqn:Hlast.
  - destruct (PyDict_last_key k waiting_clients) as (d & v & -> & Hnotin);
      [done..|].
    rewrite (delete_loop_run nextIndex k v _ d) by done.
    rewrite removelast_last. unfold after.
    destruct answered as [|a [|b answered']]; simpl; by rewrite ?app_nil_r.
  - assert (waiting_clients = []) as ->.
    { destruct waiting_clients as [|kv d _] using rev_ind; [done|].
      unfold PyDict.keys in Hlast. rewrite fmap_app in Hlast.
      change ([kv].*1) with [kv.1] in Hlast. by rewrite last_snoc in Hlast. }
    subst answered. simpl. done.
Qed.
End Handlers.

(** ** The three-node cluster *)

Import Scenario.

Example started_is_fresh :
  role started = Follower
  ∧ persist started = {| votedFor := None; currentTerm := 0 |}
  ∧ leaderId (volatile started) = None.
Proof. by vm_compute. Qed.

Example voted_is_follower :
  role voted = Follower
  ∧ persist voted = {| votedFor := Some 2; currentTerm := 1 |}
  ∧ leaderId (volatile voted) = None
  ∧ log_index (log voted) = 0.
Proof. by vm_compute. Qed.

Example candidate_is_candidate :
  role candidate = Candidate 1
  ∧ persist candidate = {| votedFor := Some 1; currentTerm := 1 |}.
Proof. by vm_compute. Qed.

Example leader_xy_is_leader :
  role leader_xy = Leader (nextIndex_of leader_xy) [(1, [7]); (2, [8])]
  ∧ persist leader_xy = {| votedFor := Some 1; currentTerm := 1 |}
  ∧ leaderId (volatile leader_xy) = Some 1
  ∧ log_index (log leader_xy) = 2
  ∧ Qcanon.this (log_commitIndex (log leader_xy)) = 0%Q.
Proof. by vm_compute. Qed.



(** What the leader of the example does with that heartbeat. *)
Example leader_steps_down :
  let o := data_received_peer config 3 (AppendEntries heartbeat) leader_xy in
  result o = Ok tt
  ∧ role (final o) = Follower
  ∧ persist (final o) = {| votedFor := None; currentTerm := 2 |}
  ∧ leaderId (volatile (final o)) = Some 3
  ∧ events o =
      [AppendTimerCancel; ElectionTimerRestart; ElectionTimerRestart;
       SendPeer 3 (ResponseAppend {| ra_term := 2; ra_next_index := 3 |})].
Proof. by vm_compute. Qed.

(** C2: after node 2 reports [next_index = 3] both entries are
    committed ([commitIndex = 2]), yet only client 8, who waits for
    index 2, is answered; client 7, whose entry 1 is committed, gets no
    result and stays in [waiting_clients]. *)
Theorem C2_committed_entry_not_answered :
  let o := data_received_peer config 2
             (ResponseAppend {| ra_term := 1; ra_next_index := 3 |})
             leader_xy in
  result o = Ok tt
  ∧ log_commitIndex (log (final o)) = Qc_of_Z 2
  ∧ events o = [ClientSend 8 (Result true)]
  ∧ waiting_clients_of (final o) = [(1, [7])].
Proof.
  cbv zeta. split; [by vm_compute|]. split; [|by vm_compute].
  apply Qc_is_canon. by vm_compute.
Qed.

(** C3 as stated fails: the follower of term 1 receives an
    [append_entries] of term 0 that carries a snapshot; it replaces its
    log by the snapshot and adopts the sender as leader. *)
Lemma C3_counterexample :
  let o := data_received_peer config 3 (AppendEntries stale_snapshot) voted in
  role voted = Follower
  ∧ ae_term stale_snapshot < currentTerm (persist voted)
  ∧ log (final o) ≠ log voted
  ∧ log_commitIndex (log (final o)) ≠ log_commitIndex (log voted)
  ∧ leaderId (volatile (final o)) ≠ leaderId (volatile voted).
Proof. by vm_compute. Qed.

Lemma C3_stale_term_request_witness :
  (rv_term stale_vote < currentTerm (persist voted)
   ∧ is_Leader (role voted) = false
   ∧ data_received_peer config 3 (RequestVote stale_vote) voted =
       {| result := Ok tt; final := voted;
          events :=
            [ElectionTimerRestart;
             SendPeer 3
               (ResponseVote {| rsv_term := currentTerm (persist voted);
                                rsv_voteGranted := false |})] |})
  ∧ (ae_term stale_append < currentTerm (persist voted)
     ∧ role voted = Follower
     ∧ ae_compact stale_append = None
     ∧ data_received_peer config 3 (AppendEntries stale_append) voted =
         {| result := Ok tt; final := voted;
            events :=
              [ElectionTimerRestart;
               SendPeer 3
                 (ResponseAppend
                    {| ra_term := currentTerm (persist voted);
                       ra_next_index := log_index (log voted) + 1 |})] |}).
Proof.
  destruct (C3_stale_term_request config 3 voted) as [Hvote Happend].
  split.
  - split; [by vm_compute|]. split; [by vm_compute|].
    apply Hvote; by vm_compute.
  - split; [by vm_compute|]. split; [by vm_compute|].
    split; [by vm_compute|]. apply Happend; by vm_compute.
Defined.

(** The other roles and stale requests: the Leader has no handler for
    either request and sends nothing; a Candidate that gets a stale
    [append_entries] becomes a Follower, which clears its vote. *)
Example leader_drops_stale_requests :
  data_received_peer config 3 (RequestVote stale_vote) leader_xy
    = {| result := Ok tt; final := leader_xy; events := [] |}
  ∧ data_received_peer config 3 (AppendEntries stale_append) leader_xy
    = {| result := Ok tt; final := leader_xy; events := [] |}.
Proof. by vm_compute. Qed.

Example candidate_stale_append :
  let o := data_received_peer config 3 (AppendEntries stale_append) candidate in
  ae_term stale_append < currentTerm (persist candidate)
  ∧ persist candidate = {| votedFor := Some 1; currentTerm := 1 |}
  ∧ role (final o) = Follower
  ∧ persist (final o) = {| votedFor := None; currentTerm := 1 |}
  ∧ events o =
      [ElectionTimerCancel; ElectionTimerRestart; ElectionTimerRestart;
       SendPeer 3 (ResponseAppend {| ra_term := 1; ra_next_index := 1 |})].
Proof. by vm_compute. Qed.


Lemma C6_append_unknown_leader_witness :
  is_Leader (role started) = false
  ∧ leaderId (volatile started) = None
  ∧ data_received_client config 7 (ClientAppend "x") started =
      {| result := Raise KeyError; final := started; events := [] |}.
Proof.
  split; [by vm_compute|]. split; [by vm_compute|].
  apply (C6_append_unknown_leader config 7 "x" started); by vm_compute.
Defined.

(** C7: two handlers that end in an uncaught [KeyError].  A client
    [append] reaches the freshly started follower, which knows no leader.
    The leader of the example hears [next_index = 1] from node 2: nothing
    gets committed, both waiting clients are told [success], and the
    second [del] of the same key raises. *)
Theorem C7_handlers_raise :
  result (data_received_client config 7 (ClientAppend "x") started)
    = Raise KeyError
  ∧ (let o := data_received_peer config 2
                (ResponseAppend {| ra_term := 1; ra_next_index := 1 |})
                leader_xy in
     result o = Raise KeyError
     ∧ Qcanon.this (log_commitIndex (log (final o))) = 0%Q
     ∧ events o = [ClientSend 7 (Result true); ClientSend 8 (Result true)]
     ∧ waiting_clients_of (final o) = [(1, [7])]).
Proof. by vm_compute. Qed.

Lemma C8_candidate_witness :
  (let o := Candidate__init__ started in
   result o = Ok tt
   ∧ role (final o) = Candidate 1
   ∧ currentTerm (persist (final o)) = currentTerm (persist started) + 1
   ∧ votedFor (persist (final o)) = Some (Id (volatile started)))
  ∧ role candidate = Candidate 1
  ∧ let msg := {| rsv_term := 1; rsv_voteGranted := true |} in
    let o := Candidate_on_peer_response_vote config 2 msg candidate in
    let votes_count' := 1 + Z.b2z (rsv_voteGranted msg) in
    let majority :=
      (Qc_of_Z (Z.of_nat (length (config_cluster config))) / Qc_of_Z 2
       < Qc_of_Z votes_count')%Qc in
    0 ≤ Z.b2z (rsv_voteGranted msg) ≤ 1
    ∧ (majority ↔
       Z.of_nat (length (config_cluster config)) < 2 * votes_count')
    ∧ result o = Ok tt
    ∧ (is_Leader (role (final o)) = true ↔ majority)
    ∧ (majority →
       o = change_state config LeaderCls
             (with_role (Candidate votes_count') candidate))
    ∧ (¬ majority →
       o = {| result := Ok tt;
              final := with_role (Candidate votes_count') candidate;
              events := [] |}).
Proof.
  split; [exact (proj1 (C8_candidate config started))|].
  split; [by vm_compute|].
  apply (proj2 (C8_candidate config candidate)
           2 {| rsv_term := 1; rsv_voteGranted := true |} 1).
  by vm_compute.
Defined.

Lemma C9_follower_higher_term_witness :
  role voted = Follower
  ∧ currentTerm (persist voted) < msg_term (AppendEntries heartbeat)
  ∧ let msg := AppendEntries heartbeat in
    let o := data_received_peer config 3 msg voted in
    o = {| result := Ok tt; final := with_currentTerm (msg_term msg) voted;
           events := [] |}
    ∧ role (final o) = Follower
    ∧ currentTerm (persist (final o)) = msg_term msg
    ∧ votedFor (persist (final o)) = votedFor (persist voted)
    ∧ log (final o) = log voted
    ∧ volatile (final o) = volatile voted.
Proof.
  split; [by vm_compute|]. split; [by vm_compute|].
  apply (C9_follower_higher_term config 3 (AppendEntries heartbeat) voted);
    by vm_compute.
Defined.

Lemma C10_null_prevLogTerm_witness :
  ae_prevLogTerm heartbeat = None
  ∧ prev_log_term_match heartbeat voted = true
  ∧ success heartbeat voted
    = bool_decide (currentTerm (persist voted) ≤ ae_term heartbeat)
  ∧ (ae_compact heartbeat = None →
     let o := Follower_on_peer_append_entries 3 heartbeat voted in
     result o = Ok tt
     ∧ final o =
         (if bool_decide (currentTerm (persist voted) ≤ ae_term heartbeat) then
            with_leaderId (Some (ae_leaderId heartbeat))
              (with_log
                 (log_commit (ae_leaderCommit heartbeat)
                    (log_append_entries (ae_entries heartbeat)
                       (ae_prevLogIndex heartbeat) (log voted))) voted)
          else voted)
     ∧ events o =
         [ElectionTimerRestart;
          SendPeer 3
            (ResponseAppend
               {| ra_term := currentTerm (persist voted);
                  ra_next_index := log_index (log (final o)) + 1 |})]).
Proof.
  split; [by vm_compute|].
  apply (C10_null_prevLogTerm 3 heartbeat voted). by vm_compute.
Defined.


(** * More of the roles *)

(** ** Dicts, again *)

Section DictMore.
Context {K V : Type} `{EqDecision K}.
Implicit Types d : list (K * V).



Lemma PyDict_keys_set k v d :
  PyDict.keys (PyDict.set k v d)
  = if decide (k ∈ PyDict.keys d) then PyDict.keys d
    else PyDict.keys d ++ [k].
Proof.
  unfold PyDict.keys. induction d as [|[k' v'] d IH].
  - cbn [PyDict.set fmap list_fmap fst]. by rewrite decide_False by apply not_elem_of_nil.
  - cbn [PyDict.set]. destruct (decide (k = k')) as [->|Hk].
    + rewrite !fmap_cons. cbn [fst]. by rewrite decide_True by left.
    + rewrite !fmap_cons, IH. cbn [fst]. destruct (decide (k ∈ d.*1)) as [Hin|Hin].
      * by rewrite decide_True by by right.
      * rewrite decide_False; [done|]. by intros [?|?]%elem_of_cons.
Qed.

Lemma PyDict_set_NoDup k v d :
  NoDup (PyDict.keys d) → NoDup (PyDict.keys (PyDict.set k v d)).
Proof.
  intros Hd. rewrite PyDict_keys_set. case_decide as Hin; [done|].
  apply NoDup_app. split; [done|]. split; [|apply NoDup_singleton].
  intros x Hx ->%list_elem_of_singleton. done.
Qed.

Lemma PyDict_get_None k d : PyDict.get k d = None ↔ k ∉ PyDict.keys d.
Proof.
  unfold PyDict.keys. induction d as [|[k' v'] d IH]; simpl.
  - split; [intros _; apply not_elem_of_nil|done].
  - rewrite not_elem_of_cons. case_decide as Hk.
    + split; [done|]. by intros [? _].
    + rewrite IH. split; [done|]. by intros [_ ?].
Qed.

Lemma PyDict_removelast_NoDup d :
  NoDup (PyDict.keys d) → NoDup (PyDict.keys (removelast d)).
Proof.
  unfold PyDict.keys. destruct d as [|kv d _] using rev_ind; [done|].
  rewrite removelast_last, fmap_app. by intros [? _]%NoDup_app.
Qed.
End DictMore.

(** ** The median, again *)





(** ** Peer messages *)

Section Coverage.
Context {L : Type} `{!LogManager L} (config : Config).
Implicit Types n : Node L.

Lemma change_state_Leader_run n :
  result (change_state config LeaderCls n) = Ok tt
  ∧ final (change_state config LeaderCls n) =
      with_role
        (Leader
           (list_to_map
              ((λ x, (x, (log_commitIndex (log n) + Qc_of_Z 1)%Qc))
                 <$> PyDict.keys (config_cluster config)))
           [])
        (with_leaderId (Some (Id (volatile n))) n).
Proof.
  unfold change_state, teardown. steps.
  destruct (Leader__init___run config n) as [Hres Hfin].
  destruct (role n); steps; unfold after; cbn [result final events];
    by rewrite Hres, Hfin.
Qed.

Lemma Leader_on_peer_response_append_run peer_id msg nextIndex waiting_clients n :
  role n = Leader nextIndex waiting_clients →
  let nextIndex' :=
    <[Id (volatile n) := Qc_of_Z (log_index (log n) + 1)]>
      (<[peer_id := Qc_of_Z (ra_next_index msg)]> nextIndex) in
  ∃ m,
    median (map_to_list nextIndex').*2 = Some m
    ∧ Leader_on_peer_response_append peer_id msg n
      = send_client_append_response
          (with_log (log_commit (m - Qc_of_Z 1)%Qc (log n))
             (with_role (Leader nextIndex' waiting_clients) n)).
Proof.
  intros Hr nextIndex'.
  destruct (median_is_Some (map_to_list nextIndex').*2) as [m Hm].
  { intros Hnil. apply fmap_nil_inv, map_to_list_empty_iff in Hnil.
    subst nextIndex'. by apply insert_non_empty in Hnil. }
  exists m. split; [done|].
  unfold Leader_on_peer_response_append, get_nextIndex, set_nextIndex.
  open_handler.
  repeat first [ step | rewrite Hr
               | progress cbn [role with_role volatile log] ].
  fold nextIndex'. rewrite Hm. unfold getitem. by steps.
Qed.

(** No role handler changes [currentTerm]. *)
Lemma on_peer_currentTerm peer_id msg n :
  currentTerm (persist (final (on_peer config peer_id msg n)))
  = currentTerm (persist n).
Proof.
  destruct (role n) as [|vc|ni wc] eqn:Hr.
  - by apply on_peer_Follower_currentTerm.
  - unfold on_peer. steps. rewrite Hr. destruct msg as [m|m|m| |]; try done.
    + apply Follower_on_peer_request_vote_currentTerm.
    + unfold Candidate_on_peer_response_vote, get_votes_count. open_handler.
      steps. rewrite Hr. steps. case_decide; steps; [|done].
      by destruct (change_state_Leader_run (with_role (Candidate (vc + Z.b2z (rsv_voteGranted m))) n)) as [_ ->].
    + unfold Candidate_on_peer_append_entries. rewrite bind_run.
      rewrite change_state_Follower_run. cbn [result final events].
      unfold after. cbn [final].
      rewrite Follower_on_peer_append_entries_run. cbn [final].
      destruct (ae_compact m); [done|]. by destruct (success _ _).
  - unfold on_peer. steps. rewrite Hr. destruct msg as [| | |m|]; try done.
    destruct (Leader_on_peer_response_append_run peer_id m ni wc n Hr)
      as (x & _ & ->).
    edestruct send_client_append_response_frame as [wc' ->]; [done|]. done.
Qed.

Lemma data_received_peer_currentTerm peer_id msg n :
  currentTerm (persist (final (data_received_peer config peer_id msg n)))
  = Z.max (currentTerm (persist n)) (msg_term msg).
Proof.
  rewrite data_received_peer_cases. case_bool_decide as Ht.
  - rewrite Z.max_r by lia. destruct (is_Follower (role n)) eqn:Hr; [done|].
    cbv zeta. unfold set_currentTerm. rewrite bind_modify.
    rewrite change_state_Follower_run. unfold and_then. cbn [result final].
    set (n' := with_votedFor None _).
    rewrite (data_received_peer_cases _ _ _ n').
    rewrite bool_decide_eq_false_2 by (simpl; lia).
    by rewrite on_peer_currentTerm.
  - rewrite Z.max_l by lia. apply on_peer_currentTerm.
Qed.


Lemma Candidate_on_peer_append_entries_run peer_id msg n :
  is_Leader (role n) = false →
  Candidate_on_peer_append_entries config peer_id msg n =
    after [ElectionTimerCancel; ElectionTimerRestart]
      (Follower_on_peer_append_entries peer_id msg
         (with_votedFor None (with_role Follower n))).
Proof.
  intros Hr. unfold Candidate_on_peer_append_entries.
  rewrite bind_run, change_state_Follower_run. cbn [result final events].
  by rewrite Hr.
Qed.

(** A Candidate that receives [append_entries], of whatever term, ends
    as a Follower that has forgotten its vote: for a term up to its own
    through [Candidate.on_peer_append_entries], for a higher one through
    the term rule.  The vote it gave itself in the current term is lost
    although the term has not changed. *)
Theorem candidate_append_entries_steps_down peer_id msg votes_count n :
  role n = Candidate votes_count →
  let o := data_received_peer config peer_id (AppendEntries msg) n in
  result o = Ok tt
  ∧ role (final o) = Follower
  ∧ votedFor (persist (final o)) = None
  ∧ currentTerm (persist (final o))
    = Z.max (currentTerm (persist n)) (ae_term msg)
  ∧ (ae_term msg ≤ currentTerm (persist n) →
     o = after [ElectionTimerCancel; ElectionTimerRestart]
           (Follower_on_peer_append_entries peer_id msg
              (with_votedFor None (with_role Follower n)))).
Proof.
  intros Hr. cbv zeta. rewrite data_received_peer_cases.
  change (msg_term (AppendEntries msg)) with (ae_term msg).
  case_bool_decide as Ht.
  - rewrite Hr. cbn [is_Follower]. cbv zeta.
    unfold set_currentTerm. rewrite bind_modify, change_state_Follower_run.
    unfold and_then. cbn [result final events].
    set (n' := with_votedFor None _).
    rewrite (data_received_peer_cases _ _ _ n').
    rewrite bool_decide_eq_false_2 by (simpl; lia).
    unfold on_peer. steps. cbn [role n' with_votedFor with_role].
    rewrite Follower_on_peer_append_entries_run. cbn [result final events].
    rewrite Z.max_r by lia.
    split; [done|]. split; [|split; [|split; [|lia]]].
    all: destruct (ae_compact msg); [done|]; by destruct (success _ _).
  - unfold on_peer. steps. rewrite Hr.
    rewrite Candidate_on_peer_append_entries_run by by rewrite Hr.
    rewrite Follower_on_peer_append_entries_run. unfold after.
    cbn [result final events]. rewrite Z.max_l by lia.
    split; [done|]. split; [|split; [|split; [|done]]].
    all: destruct (ae_compact msg); [done|]; by destruct (success _ _).
Qed.

(** Messages for which the role has no handler are dropped: the Leader
    answers no request and counts no vote, and responses that reach a
    Follower are ignored. *)
Theorem unhandled_messages_dropped peer_id msg n :
  msg_term msg ≤ currentTerm (persist n) →
  match role n, msg with
  | Leader _ _, ResponseAppend _ => False
  | Leader _ _, _ => True
  | Follower, (ResponseVote _ | ResponseAppend _ | OtherPeerMsg _ _) => True
  | Candidate _, (ResponseAppend _ | OtherPeerMsg _ _) => True
  | _, _ => False
  end →
  data_received_peer config peer_id msg n
  = {| result := Ok tt; final := n; events := [] |}.
Proof.
  intros Ht Hcase. rewrite data_received_peer_cases.
  rewrite bool_decide_eq_false_2 by lia.
  unfold on_peer. steps. by destruct (role n), msg.
Qed.

(** An [append_entries] that carries a snapshot and is not of a higher
    term makes a Follower replace its log by the snapshot and adopt the
    sender as leader whatever the term and the previous-log check say;
    its entries and [leaderCommit] are not used. *)
Theorem snapshot_replaces_log peer_id msg c n :
  role n = Follower →
  ae_term msg ≤ currentTerm (persist n) →
  ae_compact msg = Some c →
  let log' :=
    log_from_compact (compact_count c) (compact_term c) (compact_data c) in
  data_received_peer config peer_id (AppendEntries msg) n =
    {| result := Ok tt;
       final := with_leaderId (Some (ae_leaderId msg)) (with_log log' n);
       events :=
         [ElectionTimerRestart;
          SendPeer peer_id
            (ResponseAppend {| ra_term := currentTerm (persist n);
                               ra_next_index := log_index log' + 1 |})] |}.
Proof.
  intros Hr Ht Hc. cbv zeta. rewrite data_received_peer_cases.
  rewrite bool_decide_eq_false_2 by (simpl; lia).
  unfold on_peer. steps. rewrite Hr.
  rewrite Follower_on_peer_append_entries_run. by rewrite Hc.
Qed.



(** ** Client messages *)

Lemma Leader_on_client_append_run protocol data nextIndex waiting_clients n :
  role n = Leader nextIndex waiting_clients →
  let entry := {| entry_term := currentTerm (persist n); entry_data := data |} in
  let log' := log_append_entries [entry] (Qc_of_Z (log_index (log n))) (log n) in
  let waiting :=
    default [] (PyDict.get (log_index log') waiting_clients) ++ [protocol] in
  Leader_on_client_append protocol data n =
    {| result := Ok tt;
       final :=
         with_role
           (Leader nextIndex (PyDict.set (log_index log') waiting waiting_clients))
           (with_log log' n);
       events := [] |}.
Proof.
  intros Hr. cbv zeta.
  unfold Leader_on_client_append, get_waiting_clients, set_waiting_clients.
  open_handler.
  repeat first [ step | rewrite Hr
               | progress cbn [role with_role with_log volatile log persist] ].
  destruct (PyDict.get _ waiting_clients);
    repeat first [ step | rewrite Hr
                 | progress cbn [role with_role with_log volatile log persist] ];
    done.
Qed.

Lemma State_on_client_append_run protocol n :
  State_on_client_append config protocol n =
    match leaderId (volatile n) ≫= λ i, PyDict.get i (config_cluster config) with
    | Some address =>
        {| result := Ok tt; final := n;
           events := [ClientSend protocol (Redirect (Some address))] |}
    | None => {| result := Raise KeyError; final := n; events := [] |}
    end.
Proof.
  unfold State_on_client_append, getitem. open_handler. steps.
  destruct (leaderId (volatile n) ≫= _); by steps.
Qed.

Lemma data_received_client_read_final protocol msg n :
  match msg with ClientAppend _ => False | _ => True end →
  final (data_received_client config protocol msg n) = n.
Proof.
  intros Hmsg. unfold data_received_client. steps. by destruct msg.
Qed.


(** A client [append] that reaches a node that is not the Leader never
    changes the node: the client is redirected to the address of the
    known leader, and there is a [KeyError] and no reply when no leader
    is known or the known leader is not in [config.cluster]. *)
Theorem follower_append_redirects protocol data n :
  is_Leader (role n) = false →
  data_received_client config protocol (ClientAppend data) n =
    match leaderId (volatile n) ≫= λ i, PyDict.get i (config_cluster config) with
    | Some address =>
        {| result := Ok tt; final := n;
           events := [ClientSend protocol (Redirect (Some address))] |}
    | None => {| result := Raise KeyError; final := n; events := [] |}
    end.
Proof.
  intros Hr. unfold data_received_client. steps. rewrite Hr.
  apply State_on_client_append_run.
Qed.


(** ** Rounds of append_entries *)

Lemma send_append_entries_to_run peer_id nextIndex waiting_clients n :
  role n = Leader nextIndex waiting_clients →
  send_append_entries_to peer_id n =
    if decide (peer_id = Id (volatile n))
    then {| result := Ok tt; final := n; events := [] |}
    else match nextIndex !! peer_id with
         | Some next =>
             {| result := Ok tt; final := n;
                events :=
                  [SendPeer peer_id
                     (AppendEntries (append_entries_for next n))] |}
         | None => {| result := Raise KeyError; final := n; events := [] |}
         end.
Proof.
  intros Hr. unfold send_append_entries_to, get_nextIndex, getitem.
  open_handler. steps. case_decide; [done|]. steps. rewrite Hr. steps.
  destruct (nextIndex !! peer_id); by steps.
Qed.

Lemma append_entries_loop_run (peers : list PeerId) nextIndex waiting_clients n :
  role n = Leader nextIndex waiting_clients →
  (∀ peer_id, peer_id ∈ peers → is_Some (nextIndex !! peer_id)) →
  for_each peers send_append_entries_to n =
    {| result := Ok tt; final := n;
       events :=
         peer_id ← peers;
         if decide (peer_id = Id (volatile n)) then []
         else match nextIndex !! peer_id with
              | Some next =>
                  [SendPeer peer_id
                     (AppendEntries (append_entries_for next n))]
              | None => []
              end |}.
Proof.
  intros Hr. induction peers as [|p peers IH]; intros Hcov; [done|].
  cbn [for_each]. rewrite bind_run, (send_append_entries_to_run _ _ _ _ Hr).
  destruct (Hcov p) as [next Hnext]; [left|].
  rewrite Hnext, bind_cons, Hnext. unfold after.
  case_decide; cbn [result final events];
    by rewrite IH by (intros q Hq; apply Hcov; by right).
Qed.

Lemma send_append_entries_run nextIndex waiting_clients n :
  role n = Leader nextIndex waiting_clients →
  (∀ peer_id, peer_id ∈ PyDict.keys (config_cluster config) →
              is_Some (nextIndex !! peer_id)) →
  send_append_entries config n =
    {| result := Ok tt; final := n;
       events := append_entries_round config nextIndex n
                 ++ [AppendTimerSchedule] |}.
Proof.
  intros Hr Hcov. unfold send_append_entries. rewrite bind_run.
  by rewrite (append_entries_loop_run _ _ _ _ Hr Hcov).
Qed.

Lemma for_each_final {A} (xs : list A) (body : A → M L unit) n :
  (∀ x n', final (body x n') = n') → final (for_each xs body n) = n.
Proof.
  intros Hbody. induction xs as [|x xs IH]; [done|].
  cbn [for_each]. rewrite bind_run.
  destruct (result (body x n)); unfold after; cbn [final];
    by rewrite Hbody.
Qed.

Lemma send_append_entries_final n : final (send_append_entries config n) = n.
Proof.
  unfold send_append_entries. rewrite bind_run.
  assert (Hloop : final (for_each (PyDict.keys (config_cluster config))
                           send_append_entries_to n) = n).
  { apply for_each_final. clear. intros peer_id n.
    unfold send_append_entries_to, get_nextIndex, getitem. open_handler.
    steps. case_decide; [done|]. steps.
    destruct (role n); steps; try done.
    destruct (_ !! peer_id); by steps. }
  destruct (result _); unfold after; cbn [final]; by rewrite Hloop.
Qed.

(** The edge the loop has: a peer of the cluster without an entry in
    [nextIndex] stops the round with a [KeyError], before the timer is
    scheduled again. *)
Theorem append_entries_round_missing_peer peer_id nextIndex waiting_clients n :
  role n = Leader nextIndex waiting_clients →
  peer_id ∈ PyDict.keys (config_cluster config) →
  peer_id ≠ Id (volatile n) →
  nextIndex !! peer_id = None →
  let o := send_append_entries config n in
  result o = Raise KeyError
  ∧ final o = n
  ∧ AppendTimerSchedule ∉ events o.
Proof.
  intros Hr Hin Hne Hnone. cbv zeta. unfold send_append_entries.
  rewrite bind_run.
  assert (Hloop :
    let o := for_each (PyDict.keys (config_cluster config))
               send_append_entries_to n in
    result o = Raise KeyError ∧ final o = n
    ∧ AppendTimerSchedule ∉ events o).
  { induction (PyDict.keys (config_cluster config)) as [|q peers IH];
      [by apply elem_of_nil in Hin|].
    cbn [for_each]. cbv zeta.
    rewrite bind_run, (send_append_entries_to_run _ _ _ _ Hr).
    destruct (decide (q = Id (volatile n))) as [Hq|Hq].
    - cbn [result final events]. unfold after. cbn [result final events app].
      apply IH. apply elem_of_cons in Hin as [->|Hin]; done.
    - destruct (nextIndex !! q) as [next|] eqn:Hnext.
      + cbn [result final events]. unfold after. cbn [result final events].
        apply elem_of_cons in Hin as [->|Hin]; [congruence|].
        destruct (IH Hin) as (Hres & Hfin & Hev).
        split; [done|]. split; [done|].
        rewrite not_elem_of_app. split; [|done].
        by intros [=]%list_elem_of_singleton.
      + cbn [result final events]. split; [done|]. split; [done|].
        apply not_elem_of_nil. }
  destruct Hloop as (Hres & Hfin & Hev). by rewrite Hres.
Qed.

(** ** Elections *)

Lemma initial_nextIndex_lookup (c : Num) (peers : list PeerId) peer_id :
  (list_to_map ((λ x, (x, c)) <$> peers) : gmap PeerId Num) !! peer_id
  = if decide (peer_id ∈ peers) then Some c else None.
Proof.
  assert (Hkeys : ((λ x, (x, c)) <$> peers).*1 = peers).
  { rewrite <- list_fmap_compose. unfold compose. simpl.
    by rewrite list_fmap_id. }
  case_decide as Hin.
  - destruct (list_to_map _ !! peer_id) as [y|] eqn:Hy.
    + by apply elem_of_list_to_map_2, list_elem_of_fmap in Hy
        as (x & [= -> ->] & _).
    + apply not_elem_of_list_to_map in Hy. by rewrite Hkeys in Hy.
  - apply not_elem_of_list_to_map. by rewrite Hkeys.
Qed.

Lemma Leader__init___events n :
  let nextIndex : gmap PeerId Num :=
    list_to_map
      ((λ x, (x, (log_commitIndex (log n) + Qc_of_Z 1)%Qc))
         <$> PyDict.keys (config_cluster config)) in
  let n' :=
    with_role (Leader nextIndex [])
      (with_leaderId (Some (Id (volatile n))) n) in
  Leader__init__ config n =
    {| result := Ok tt; final := n';
       events := append_entries_round config nextIndex n'
                 ++ [AppendTimerSchedule] |}.
Proof.
  cbv zeta. unfold Leader__init__, set_waiting_clients.
  open_handler. steps. cbn [log with_leaderId].
  set (ni := list_to_map _). set (n' := with_role _ _).
  rewrite bind_run, (send_append_entries_run ni [] n'); [|done|].
  - cbn [result final events]. unfold after. steps.
    cbn [role n' with_role]. steps. by rewrite app_nil_r.
  - intros x Hx. subst ni. rewrite initial_nextIndex_lookup.
    by rewrite decide_True.
Qed.

Lemma change_state_Candidate_run n :
  change_state config CandidateCls n =
    {| result := Ok tt;
       final :=
         with_role (Candidate 1)
           (with_votedFor (Some (Id (volatile n)))
              (with_currentTerm (currentTerm (persist n) + 1)
                 (with_votedFor None n)));
       events :=
         [if is_Leader (role n) then AppendTimerCancel else ElectionTimerCancel;
          ElectionTimerRestart;
          BroadcastPeers
            (RequestVote {| rv_term := currentTerm (persist n) + 1;
                            rv_candidateId := Id (volatile n);
                            rv_lastLogIndex := log_index (log n);
                            rv_lastLogTerm := log_term None (log n) |})] |}.
Proof.
  unfold change_state, teardown. steps.
  destruct (role n); steps; by rewrite Candidate__init___run.
Qed.

(** The [response_vote] that takes a Candidate's count over half the
    cluster makes it the Leader at once, whoever sent it and whatever
    term not above the Candidate's it carries: [leaderId] is the node
    itself, [nextIndex] holds [commitIndex + 1] for exactly the peers of
    the cluster, nobody is waiting, and the first round of
    [append_entries] goes out before the timer is armed. *)
Theorem election_won peer_id msg votes_count n :
  role n = Candidate votes_count →
  rsv_term msg ≤ currentTerm (persist n) →
  Z.of_nat (length (config_cluster config))
    < 2 * (votes_count + Z.b2z (rsv_voteGranted msg)) →
  ∃ nextIndex : gmap PeerId Num,
    (∀ p, nextIndex !! p =
          if decide (p ∈ PyDict.keys (config_cluster config))
          then Some (log_commitIndex (log n) + Qc_of_Z 1)%Qc else None)
    ∧ let n' := with_role (Leader nextIndex [])
                  (with_leaderId (Some (Id (volatile n))) n) in
      data_received_peer config peer_id (ResponseVote msg) n =
        {| result := Ok tt; final := n';
           events :=
             ElectionTimerCancel
             :: append_entries_round config nextIndex n'
             ++ [AppendTimerSchedule] |}.
Proof.
  intros Hr Ht Hmaj. eexists. split; [apply initial_nextIndex_lookup|].
  cbv zeta. rewrite data_received_peer_cases.
  rewrite bool_decide_eq_false_2 by (simpl; lia).
  unfold on_peer. steps. rewrite Hr.
  unfold Candidate_on_peer_response_vote, get_votes_count. open_handler.
  steps. rewrite Hr. steps.
  rewrite decide_True by by apply half_lt_iff.
  unfold change_state, teardown. steps. cbn [role with_role]. steps.
  by rewrite Leader__init___events.
Qed.

(** ** What the event loop can reach *)

Lemma well_formed_Follower n :
  Id (volatile n) = config_id config → role n = Follower →
  well_formed config n.
Proof. intros HId Hr. split; [done|]. by rewrite Hr. Qed.
Lemma on_peer_well_formed peer_id msg n :
  well_formed config n → well_formed config (final (on_peer config peer_id msg n)).
Proof.
  intros Hn. pose proof Hn as [HId Hwf]. unfold on_peer. steps.
  destruct (role n) as [|vc|ni wc] eqn:Hr, msg as [m|m|m|m|];
    try exact Hn.
  - rewrite Follower_on_peer_request_vote_run. cbn [final].
    apply well_formed_Follower; by destruct (_ && _ && _).
  - rewrite Follower_on_peer_append_entries_run. cbn [final].
    apply well_formed_Follower;
      (destruct (ae_compact m); [done|]); by destruct (success _ _).
  - rewrite Follower_on_peer_request_vote_run. cbn [final].
    destruct Hwf as [Hv Hvc]. rewrite Hv.
    destruct (bool_decide (currentTerm _ ≤ _)); cbn [andb];
      [|split; [done|by rewrite Hr]].
    case_bool_decide as Hcan; cbn [andb]; [|split; [done|by rewrite Hr]].
    destruct (bool_decide (log_index _ ≤ _)); [|split; [done|by rewrite Hr]].
    destruct Hcan as [|[= Hc]]; [done|].
    split; [done|]. cbn [role with_votedFor persist votedFor volatile].
    rewrite Hr. by rewrite <- Hc.
  - unfold Candidate_on_peer_response_vote, get_votes_count. open_handler.
    steps. rewrite Hr. steps. destruct Hwf as [Hv Hvc].
    case_decide; steps.
    + destruct (change_state_Leader_run
                  (with_role (Candidate (vc + Z.b2z (rsv_voteGranted m))) n))
        as [_ ->].
      split; [done|]. cbn. split; [done|]. split; [done|].
      split; [|constructor].
      intros p Hp. rewrite initial_nextIndex_lookup, decide_True by done.
      by eexists.
    + split; [done|]. cbn. split; [done|].
      destruct (rsv_voteGranted m); simpl; lia.
  - rewrite Candidate_on_peer_append_entries_run by by rewrite Hr.
    rewrite Follower_on_peer_append_entries_run. unfold after. cbn [final].
    apply well_formed_Follower;
      (destruct (ae_compact m); [done|]); by destruct (success _ _).
  - destruct Hwf as (Hv & Hl & Hcov & Hnodup).
    destruct (Leader_on_peer_response_append_run peer_id m ni wc n Hr)
      as (x & _ & ->).
    rewrite (send_client_append_response_run _ wc) by done.
    cbn [final]. set (answered := filter _ _).
    assert (Hcov' : ∀ p, p ∈ PyDict.keys (config_cluster config) →
              is_Some ((<[Id (volatile n) := Qc_of_Z (log_index (log n) + 1)]>
                 (<[peer_id := Qc_of_Z (ra_next_index m)]> ni)) !! p)).
    { intros p Hp. rewrite !lookup_insert_is_Some'. auto. }
    destruct answered; (split; [done|]); cbn; repeat split; try done.
    by apply PyDict_removelast_NoDup.
Qed.

Lemma data_received_peer_well_formed peer_id msg n :
  well_formed config n →
  well_formed config (final (data_received_peer config peer_id msg n)).
Proof.
  intros Hn. pose proof Hn as [HId Hwf]. rewrite data_received_peer_cases.
  case_bool_decide as Ht; [|by apply on_peer_well_formed].
  destruct (is_Follower (role n)) eqn:Hrole.
  - apply well_formed_Follower; [done|]. cbn. by destruct (role n).
  - cbv zeta. unfold set_currentTerm. rewrite bind_modify.
    rewrite change_state_Follower_run. unfold and_then.
    cbn [result final events]. set (n' := with_votedFor None _).
    rewrite (data_received_peer_cases _ _ _ n').
    rewrite bool_decide_eq_false_2 by (simpl; lia).
    apply on_peer_well_formed. by apply well_formed_Follower.
Qed.

Lemma data_received_client_well_formed protocol msg n :
  well_formed config n →
  well_formed config (final (data_received_client config protocol msg n)).
Proof.
  intros Hn. pose proof Hn as [HId Hwf].
  destruct msg as [data| | |ty].
  - destruct (role n) as [|vc|ni wc] eqn:Hr.
    + unfold data_received_client. steps. rewrite Hr. cbn [is_Leader].
      rewrite State_on_client_append_run. by destruct (_ ≫= _).
    + unfold data_received_client. steps. rewrite Hr. cbn [is_Leader].
      rewrite State_on_client_append_run. by destruct (_ ≫= _).
    + unfold data_received_client. steps. rewrite Hr. cbn [is_Leader].
      rewrite (Leader_on_client_append_run _ _ _ _ _ Hr). cbn [final].
      destruct Hwf as (Hv & Hl & Hcov & Hnodup).
      split; [done|]. cbn. repeat split; try done.
      by apply PyDict_set_NoDup.
  - by rewrite data_received_client_read_final.
  - by rewrite data_received_client_read_final.
  - by rewrite data_received_client_read_final.
Qed.

Lemma deliver_well_formed i n :
  well_formed config n → enabled i n = true →
  well_formed config (final (deliver config i n)).
Proof.
  intros Hn Hen. pose proof Hn as [HId Hwf].
  destruct i as [peer_id msg|protocol msg| |]; cbn [deliver].
  - by apply data_received_peer_well_formed.
  - by apply data_received_client_well_formed.
  - unfold election_timeout. rewrite change_state_Candidate_run.
    split; [done|]. cbn. done.
  - unfold append_timeout. cbn [enabled] in Hen.
    destruct (role n) as [| |ni wc] eqn:Hr; try done.
    destruct Hwf as (Hv & Hl & Hcov & Hnodup).
    by rewrite (send_append_entries_run ni wc).
Qed.

Lemma reachable_invariant n : reachable config n → well_formed config n.
Proof.
  induction 1 as [stored|n i Hreach IH Hen].
  - apply well_formed_Follower; by destruct stored.
  - by apply deliver_well_formed.
Qed.

(** However the event loop got there, the node still has the id of the
    configuration; a Candidate has at least its own vote and has voted
    for itself, and so has a Leader, which also knows itself as leader,
    has an entry in [nextIndex] for every peer of the cluster, and keeps
    the keys of [waiting_clients] distinct. *)
Theorem reachable_nodes n :
  reachable config n →
  Id (volatile n) = config_id config
  ∧ (∀ votes_count,
       role n = Candidate votes_count →
       votedFor (persist n) = Some (config_id config) ∧ 1 ≤ votes_count)
  ∧ (∀ nextIndex waiting_clients,
       role n = Leader nextIndex waiting_clients →
       votedFor (persist n) = Some (config_id config)
       ∧ leaderId (volatile n) = Some (config_id config)
       ∧ (∀ peer_id, peer_id ∈ PyDict.keys (config_cluster config) →
                     is_Some (nextIndex !! peer_id))
       ∧ NoDup (PyDict.keys waiting_clients)).
Proof.
  intros [HId Hwf]%reachable_invariant. split; [done|]. split.
  - intros vc Hr. rewrite Hr in Hwf. by rewrite <- HId.
  - intros ni wc Hr. rewrite Hr in Hwf. by rewrite <- HId.
Qed.

(** On the nodes the event loop can reach, the timer callbacks always
    return: the election timer makes the node a Candidate of the next
    term that has voted for itself and broadcasts one [request_vote];
    the append timer sends the round of [append_entries], arms itself
    again and leaves the node as it is. *)
Theorem timers_never_raise n :
  reachable config n →
  (is_Leader (role n) = false →
   let o := deliver config ElectionTimeout n in
   result o = Ok tt
   ∧ role (final o) = Candidate 1
   ∧ persist (final o) = {| votedFor := Some (Id (volatile n));
                            currentTerm := currentTerm (persist n) + 1 |}
   ∧ log (final o) = log n
   ∧ events o =
       [ElectionTimerCancel; ElectionTimerRestart;
        BroadcastPeers
          (RequestVote {| rv_term := currentTerm (persist n) + 1;
                          rv_candidateId := Id (volatile n);
                          rv_lastLogIndex := log_index (log n);
                          rv_lastLogTerm := log_term None (log n) |})])
  ∧ (∀ nextIndex waiting_clients,
       role n = Leader nextIndex waiting_clients →
       deliver config AppendTimeout n =
         {| result := Ok tt; final := n;
            events := append_entries_round config nextIndex n
                      ++ [AppendTimerSchedule] |}).
Proof.
  intros [HId Hwf]%reachable_invariant. split.
  - intros Hr. cbv zeta. cbn [deliver]. unfold election_timeout.
    rewrite change_state_Candidate_run. by rewrite Hr.
  - intros ni wc Hr. rewrite Hr in Hwf.
    destruct Hwf as (Hv & Hl & Hcov & Hnodup).
    cbn [deliver]. unfold append_timeout.
    by apply (send_append_entries_run ni wc).
Qed.

(** Nothing that reaches a node lowers [currentTerm]: a peer message
    leaves it at the larger of the old term and the message term, the
    election timer adds one, and client messages and the append timer
    leave it alone, also when the handler raises. *)
Theorem term_never_decreases i n :
  let t := currentTerm (persist (final (deliver config i n))) in
  currentTerm (persist n) ≤ t
  ∧ match i with
    | FromPeer _ msg => t = Z.max (currentTerm (persist n)) (msg_term msg)
    | ElectionTimeout => t = currentTerm (persist n) + 1
    | FromClient _ _ | AppendTimeout => t = currentTerm (persist n)
    end.
Proof.
  cbv zeta. destruct i as [peer_id msg|protocol msg| |]; cbn [deliver].
  - rewrite data_received_peer_currentTerm. lia.
  - assert (currentTerm (persist (final
              (data_received_client config protocol msg n)))
            = currentTerm (persist n)) as ->; [|lia].
    destruct msg as [data| | |ty];
      try (by rewrite data_received_client_read_final).
    unfold data_received_client. steps.
    destruct (role n) as [| |ni wc] eqn:Hr; cbn [is_Leader].
    + rewrite State_on_client_append_run. by destruct (_ ≫= _).
    + rewrite State_on_client_append_run. by destruct (_ ≫= _).
    + by rewrite (Leader_on_client_append_run _ _ _ _ _ Hr).
  - unfold election_timeout. rewrite change_state_Candidate_run. cbn. lia.
  - unfold append_timeout. rewrite send_append_entries_final. lia.
Qed.


End Coverage.

(** ** The three-node cluster, again *)

Import Cases.

Lemma leader_xy_reachable : reachable config leader_xy.
Proof.
  apply (reachable_deliver config leader_x (FromClient 8 (ClientAppend "y")));
    [|by vm_compute].
  apply (reachable_deliver config leader (FromClient 7 (ClientAppend "x")));
    [|by vm_compute].
  apply (reachable_deliver config candidate
           (FromPeer 2 (ResponseVote {| rsv_term := 1; rsv_voteGranted := true |})));
    [|by vm_compute].
  apply (reachable_deliver config started ElectionTimeout); [|by vm_compute].
  apply (reachable_start config None).
Qed.


Lemma candidate_append_entries_steps_down_witness :
  role candidate = Candidate 1
  ∧ let o := data_received_peer config 3 (AppendEntries stale_append) candidate in
    result o = Ok tt
    ∧ role (final o) = Follower
    ∧ votedFor (persist (final o)) = None.
Proof.
  split; [by vm_compute|].
  destruct (candidate_append_entries_steps_down config 3 stale_append 1 candidate)
    as (Hres & Hrole & Hvote & _); [by vm_compute|].
  exact (conj Hres (conj Hrole Hvote)).
Defined.

Lemma unhandled_messages_dropped_witness :
  msg_term (RequestVote rival_vote) ≤ currentTerm (persist leader_xy)
  ∧ is_Leader (role leader_xy) = true
  ∧ data_received_peer config 3 (RequestVote rival_vote) leader_xy
    = {| result := Ok tt; final := leader_xy; events := [] |}.
Proof.
  split; [by vm_compute|]. split; [by vm_compute|].
  apply (unhandled_messages_dropped config 3 (RequestVote rival_vote) leader_xy);
    by vm_compute.
Defined.

Lemma snapshot_replaces_log_witness :
  role voted = Follower
  ∧ ae_term stale_snapshot ≤ currentTerm (persist voted)
  ∧ let c := {| compact_data := ["a"; "b"; "c"; "d"];
                compact_term := 0; compact_count := 4 |} in
    ae_compact stale_snapshot = Some c
    ∧ let log' :=
        log_from_compact (compact_count c) (compact_term c) (compact_data c) in
      data_received_peer config 3 (AppendEntries stale_snapshot) voted =
        {| result := Ok tt;
           final := with_leaderId (Some (ae_leaderId stale_snapshot))
                      (with_log log' voted);
           events :=
             [ElectionTimerRestart;
              SendPeer 3
                (ResponseAppend {| ra_term := currentTerm (persist voted);
                                   ra_next_index := log_index log' + 1 |})] |}.
Proof.
  split; [by vm_compute|]. split; [by vm_compute|]. split; [by vm_compute|].
  apply (snapshot_replaces_log config 3 stale_snapshot _ voted); by vm_compute.
Defined.


Lemma follower_append_redirects_witness :
  is_Leader (role started) = false
  ∧ data_received_client config 7 (ClientAppend "x") started =
      match leaderId (volatile started)
            ≫= λ i, PyDict.get i (config_cluster config) with
      | Some address =>
          {| result := Ok tt; final := started;
             events := [ClientSend 7 (Redirect (Some address))] |}
      | None => {| result := Raise KeyError; final := started; events := [] |}
      end.
Proof.
  split; [by vm_compute|].
  apply (follower_append_redirects config 7 "x" started). by vm_compute.
Defined.


Lemma append_entries_round_missing_peer_witness :
  role without_nextIndex = Leader ∅ []
  ∧ 2 ∈ PyDict.keys (config_cluster config)
  ∧ 2 ≠ Id (volatile without_nextIndex)
  ∧ (∅ : gmap PeerId Num) !! 2 = None
  ∧ let o := send_append_entries config without_nextIndex in
    result o = Raise KeyError
    ∧ final o = without_nextIndex
    ∧ AppendTimerSchedule ∉ events o.
Proof.
  assert (Hin : 2 ∈ PyDict.keys (config_cluster config)).
  { vm_compute. right. left. }
  split; [by vm_compute|]. split; [exact Hin|]. split; [by vm_compute|].
  split; [by vm_compute|].
  apply (append_entries_round_missing_peer config 2 ∅ [] without_nextIndex);
    [by vm_compute|exact Hin|by vm_compute|by vm_compute].
Defined.

Lemma election_won_witness :
  role candidate = Candidate 1
  ∧ rsv_term granted_vote ≤ currentTerm (persist candidate)
  ∧ Z.of_nat (length (config_cluster config))
      < 2 * (1 + Z.b2z (rsv_voteGranted granted_vote))
  ∧ ∃ nextIndex : gmap PeerId Num,
      (∀ p, nextIndex !! p =
            if decide (p ∈ PyDict.keys (config_cluster config))
            then Some (log_commitIndex (log candidate) + Qc_of_Z 1)%Qc
            else None)
      ∧ let n' := with_role (Leader nextIndex [])
                    (with_leaderId (Some (Id (volatile candidate))) candidate) in
        data_received_peer config 2 (ResponseVote granted_vote) candidate =
          {| result := Ok tt; final := n';
             events :=
               ElectionTimerCancel
               :: append_entries_round config nextIndex n'
               ++ [AppendTimerSchedule] |}.
Proof.
  split; [by vm_compute|]. split; [by vm_compute|]. split; [by vm_compute|].
  apply (election_won config 2 granted_vote 1 candidate); by vm_compute.
Defined.

Lemma reachable_nodes_witness :
  reachable config leader_xy
  ∧ Id (volatile leader_xy) = config_id config
  ∧ ∀ nextIndex waiting_clients,
      role leader_xy = Leader nextIndex waiting_clients →
      votedFor (persist leader_xy) = Some (config_id config)
      ∧ leaderId (volatile leader_xy) = Some (config_id config)
      ∧ (∀ peer_id, peer_id ∈ PyDict.keys (config_cluster config) →
                    is_Some (nextIndex !! peer_id))
      ∧ NoDup (PyDict.keys waiting_clients).
Proof.
  split; [exact leader_xy_reachable|].
  destruct (reachable_nodes config leader_xy leader_xy_reachable)
    as (HId & _ & Hleader).
  exact (conj HId Hleader).
Defined.

Lemma timers_never_raise_witness :
  reachable config leader_xy
  ∧ role leader_xy = Leader (nextIndex_of leader_xy) (waiting_clients_of leader_xy)
  ∧ deliver config AppendTimeout leader_xy =
      {| result := Ok tt; final := leader_xy;
         events := append_entries_round config (nextIndex_of leader_xy) leader_xy
                   ++ [AppendTimerSchedule] |}.
Proof.
  split; [exact leader_xy_reachable|]. split; [by vm_compute|].
  apply (proj2 (timers_never_raise config leader_xy leader_xy_reachable)
           (nextIndex_of leader_xy) (waiting_clients_of leader_xy)).
  by vm_compute.
Defined.




(** ** More on votes and entries *)

Section Votes.
Context {L : Type} `{!LogManager L} (config : Config).
Implicit Types n : Node L.


(** A node can vote twice in one term.  A Candidate has voted for
    itself; an [append_entries] of a term not above its own makes it a
    Follower without a vote in the same term, and the next
    [request_vote] of that term from a candidate whose log index is not
    behind is granted. *)
Theorem candidate_votes_again peer_id msg peer_id' request votes_count n :
  role n = Candidate votes_count →
  votedFor (persist n) = Some (Id (volatile n)) →
  ae_term msg ≤ currentTerm (persist n) →
  let o := data_received_peer config peer_id (AppendEntries msg) n in
  rv_term request = currentTerm (persist n) →
  log_index (log (final o)) ≤ rv_lastLogIndex request →
  let o' := data_received_peer config peer_id' (RequestVote request) (final o) in
  currentTerm (persist (final o')) = currentTerm (persist n)
  ∧ votedFor (persist (final o')) = Some (rv_candidateId request)
  ∧ events o' =
      [ElectionTimerRestart;
       SendPeer peer_id'
         (ResponseVote {| rsv_term := currentTerm (persist n);
                          rsv_voteGranted := true |})].
Proof.
  intros Hr Hv Ht o Hrt Hidx.
  assert (Ho : role (final o) = Follower
               ∧ persist (final o) = {| votedFor := None;
                                        currentTerm := currentTerm (persist n) |}).
  { subst o. rewrite data_received_peer_cases.
    rewrite bool_decide_eq_false_2 by (simpl; lia).
    unfold on_peer. steps. rewrite Hr.
    rewrite Candidate_on_peer_append_entries_run by by rewrite Hr.
    rewrite Follower_on_peer_append_entries_run. unfold after. cbn [final].
    destruct (ae_compact msg); [done|]. by destruct (success _ _). }
  destruct Ho as [Hrole Hpersist]. cbv zeta.
  rewrite data_received_peer_cases.
  rewrite bool_decide_eq_false_2 by (rewrite Hpersist; simpl; lia).
  unfold on_peer. steps. rewrite Hrole.
  rewrite Follower_on_peer_request_vote_run. rewrite Hpersist.
  cbn [votedFor currentTerm].
  rewrite (bool_decide_eq_true_2 (currentTerm _ ≤ _)) by lia.
  rewrite (bool_decide_eq_true_2 (None = None ∨ _)) by by left.
  rewrite (bool_decide_eq_true_2 (log_index _ ≤ _)) by done.
  cbn. by rewrite Hpersist.
Qed.

(** A Candidate the event loop can reach has voted for itself, so it
    refuses every [request_vote] of a term not above its own from
    another candidate, and stays as it is. *)
Theorem candidate_refuses_votes peer_id msg votes_count n :
  reachable config n →
  role n = Candidate votes_count →
  rv_term msg ≤ currentTerm (persist n) →
  rv_candidateId msg ≠ config_id config →
  data_received_peer config peer_id (RequestVote msg) n =
    {| result := Ok tt; final := n;
       events :=
         [ElectionTimerRestart;
          SendPeer peer_id
            (ResponseVote {| rsv_term := currentTerm (persist n);
                             rsv_voteGranted := false |})] |}.
Proof.
  intros [HId Hwf]%reachable_invariant Hr Ht Hcand.
  rewrite Hr in Hwf. destruct Hwf as [Hv _].
  rewrite data_received_peer_cases.
  rewrite bool_decide_eq_false_2 by (simpl; lia).
  unfold on_peer. steps. rewrite Hr.
  rewrite Follower_on_peer_request_vote_run. cbv zeta.
  rewrite Hv, HId.
  rewrite (bool_decide_eq_false_2 (_ ∨ _)); [by rewrite andb_false_r|].
  intros [|[=]]; done.
Qed.
End Votes.

Lemma candidate_reachable : reachable config candidate.
Proof.
  apply (reachable_deliver config started ElectionTimeout); [|by vm_compute].
  apply (reachable_start config None).
Qed.


Lemma candidate_votes_again_witness :
  role candidate = Candidate 1
  ∧ votedFor (persist candidate) = Some (Id (volatile candidate))
  ∧ ae_term stale_append ≤ currentTerm (persist candidate)
  ∧ let o := data_received_peer config 3 (AppendEntries stale_append) candidate in
    rv_term rival_vote = currentTerm (persist candidate)
    ∧ log_index (log (final o)) ≤ rv_lastLogIndex rival_vote
    ∧ let o' := data_received_peer config 3 (RequestVote rival_vote) (final o) in
      currentTerm (persist (final o')) = currentTerm (persist candidate)
      ∧ votedFor (persist (final o')) = Some (rv_candidateId rival_vote)
      ∧ events o' =
          [ElectionTimerRestart;
           SendPeer 3
             (ResponseVote {| rsv_term := currentTerm (persist candidate);
                              rsv_voteGranted := true |})].
Proof.
  split; [by vm_compute|]. split; [by vm_compute|]. split; [by vm_compute|].
  split; [by vm_compute|]. split; [by vm_compute|].
  apply (candidate_votes_again config 3 stale_append 3 rival_vote 1 candidate);
    by vm_compute.
Defined.

Lemma candidate_refuses_votes_witness :
  reachable config candidate
  ∧ role candidate = Candidate 1
  ∧ rv_term rival_vote ≤ currentTerm (persist candidate)
  ∧ rv_candidateId rival_vote ≠ config_id config
  ∧ data_received_peer config 3 (RequestVote rival_vote) candidate =
      {| result := Ok tt; final := candidate;
         events :=
           [ElectionTimerRestart;
            SendPeer 3
              (ResponseVote {| rsv_term := currentTerm (persist candidate);
                               rsv_voteGranted := false |})] |}.
Proof.
  split; [exact candidate_reachable|]. split; [by vm_compute|].
  split; [by vm_compute|]. split; [by vm_compute|].
  apply (candidate_refuses_votes config 3 rival_vote 1 candidate);
    [exact candidate_reachable|by vm_compute..].
Defined.
